(** * Content reconciliation engine of the scraper: a shallow embedding

    The JavaScript helpers [ShowHelper] and [MovieHelper] are translated
    function by function.  Arrays are lists, JS numbers that the code only
    compares or counts are integers, objects used as string-keyed maps are
    [gmap string _], the document store is a [gmap] from [_id] to document,
    and a promise is its outcome ([Resolved] or [Rejected]).  Logger calls
    have no influence on any returned value and are left out. *)

From Stdlib Require Import ZArith QArith Qround.
From stdpp Require Import base option list gmap strings pretty.

#[local] Open Scope string_scope.
#[local] Open Scope Z_scope.
#[local] Open Scope list_scope.

(** ** Shared JavaScript notions *)

(** Outcome of an awaited promise. *)
Inductive outcome (E A : Type) : Type :=
| Resolved (a : A)
| Rejected (e : E).
Arguments Resolved {E A} a.
Arguments Rejected {E A} e.

(** [promise A E]: resolves with an [A] or rejects with an [E]. *)
Abbreviation promise A E := (outcome E A).

(** What a provider client or the runtime can throw.  A [ProviderError] is
    the rejection of an HTTP client ([statusCode], [path], [message]); a
    [TypeError] is raised by reading a property of [undefined]; [PlainError]
    is [Error(message)]. *)
Inductive error : Type :=
| ProviderError (statusCode : option Z) (path : option string) (message : string)
| TypeError (message : string)
| PlainError (message : string).

(** JS truthiness of the optional values the helpers test. *)
Definition truthy_string (s : option string) : bool :=
  match s with Some x => negb (bool_decide (x = "")) | None => false end.

Definition truthy_number (n : option Z) : bool :=
  match n with Some x => negb (bool_decide (x = 0)) | None => false end.

(** [Math.round] on the rationals: the nearest integer, halves upwards. *)
Definition Math_round (q : Q) : Z := Qfloor (q + (1 # 2))%Q.

(** [await] inside [try]: a rejection leaves the block at once. *)
#[global] Instance promise_ret {E} : MRet (outcome E) :=
  fun A a => Resolved a.

#[global] Instance promise_bind {E} : MBind (outcome E) :=
  fun A B k p => match p with Resolved a => k a | Rejected e => Rejected e end.

(** The value a settled promise carries, whichever way it settled, when both
    ways carry the same kind of value. *)
Definition carried {A} (p : promise A A) : A :=
  match p with Resolved a => a | Rejected a => a end.

(** A computation over the document store: explicit state passing. *)
Definition M (S A : Type) : Type := S -> A * S.

#[global] Instance M_ret {S} : MRet (M S) := fun A a st => (a, st).

#[global] Instance M_bind {S} : MBind (M S) :=
  fun A B k m st => let '(a, st') := m st in k a st'.

(** [Array.prototype.indexOf]: first position holding [x], [-1] when none.
    JS compares object references; two references to one object hold equal
    values, and the helpers only overwrite the found slot with [x] itself,
    so comparing values yields the same array. *)
Fixpoint indexOf_from {A} `{EqDecision A} (l : list A) (x : A) (i : Z) : Z :=
  match l with
  | [] => -1
  | y :: l' => if decide (y = x) then i else indexOf_from l' x (i + 1)
  end.

Definition indexOf {A} `{EqDecision A} (l : list A) (x : A) : Z :=
  indexOf_from l x 0.

(** [l.splice(start, 1, item)]: a negative [start] counts from the end, a
    [start] past the end appends. *)
Definition splice1 {A} (l : list A) (start : Z) (item : A) : list A :=
  let len := Z.of_nat (length l) in
  let actualStart := if start <? 0 then Z.max (len + start) 0 else Z.min start len in
  let n := Z.to_nat actualStart in
  take n l ++ item :: drop (S n) l.

(** ** The document store behind [this.Model]

    A collection is a finite map from [_id] to document.  The calls of the
    model are taken to succeed; when one throws, the helpers log the error
    and yield nothing. *)

Section Store.

Context {Doc : Type}.

(** [this.Model.findOne({_id: id})]; [None] is [null]. *)
Definition findOne (id : string) : M (gmap string Doc) (option Doc) :=
  fun d => (d !! id, d).

(** [this.Model.findOneAndUpdate({_id: id}, doc, {new: true, upsert: true})]:
    the document under [id] becomes [doc], which is also the result. *)
Definition findOneAndUpdate (id : string) (doc : Doc) : M (gmap string Doc) Doc :=
  fun d => (doc, <[id := doc]> d).

(** [new this.Model(doc).save()], with [key] reading the document's [_id]. *)
Definition save (key : Doc -> string) (doc : Doc) : M (gmap string Doc) Doc :=
  fun d => (doc, <[key doc := doc]> d).

End Store.

(** ** The movie helper of the second document of ShowHelper.js *)

Module LegacyMovieHelper.

Record Torrent : Type := mkTorrent {
  quality : string;
  language : string;
  url : string;
  seeds : Z;
  peers : Z
}.

#[global] Instance Torrent_eq_dec : EqDecision Torrent.
Proof. solve_decision. Defined.

(** Callback of [torrents.find]:
    [t => t.quality === torrent.quality && t.language === torrent.language]. *)
Definition find_cb (torrent t : Torrent) : bool :=
  bool_decide (quality t = quality torrent)
  && bool_decide (language t = language torrent).

(** Callback of [newTorrents.filter]:
    [t => t.quality !== torrent.quality && t.language !== torrent.language]. *)
Definition filter_cb (torrent t : Torrent) : bool :=
  negb (bool_decide (quality t = quality torrent))
  && negb (bool_decide (language t = language torrent)).

(** [let newTorrents = torrents] makes both names point to one array until
    [filter] gives [newTorrents] an array of its own. *)
Inductive arrays : Type :=
| Shared (a : list Torrent)
| Split (torrents newTorrents : list Torrent).

Definition torrents_of (st : arrays) : list Torrent :=
  match st with Shared a => a | Split ts _ => ts end.

Definition newTorrents_of (st : arrays) : list Torrent :=
  match st with Shared a => a | Split _ ns => ns end.

(** [newTorrents.push(x)]: seen through [torrents] too while shared. *)
Definition push (st : arrays) (x : Torrent) : arrays :=
  match st with
  | Shared a => Shared (a ++ [x])
  | Split ts ns => Split ts (ns ++ [x])
  end.

(** [newTorrents = newTorrents.filter(cb)]: a fresh array. *)
Definition refilter (cb : Torrent -> bool) (st : arrays) : arrays :=
  Split (torrents_of st) (List.filter cb (newTorrents_of st)).

(** Body of [foundTorrents.forEach(torrent => ...)]. *)
Definition forEach_body (st : arrays) (torrent : Torrent) : arrays :=
  match List.find (find_cb torrent) (torrents_of st) with
  | None => push st torrent
  | Some match_ =>
      if seeds torrent <? seeds match_
      then push (refilter (filter_cb torrent) st) match_
      else st
  end.

Definition _updateTorrents (torrents foundTorrents : list Torrent) : list Torrent :=
  newTorrents_of (fold_left forEach_body foundTorrents (Shared torrents)).

(** *** What the merge does on a key present on both sides *)

Lemma find_app_Some {A} (f : A -> bool) (l l' : list A) (x : A) :
  List.find f l = Some x -> List.find f (l ++ l') = Some x.
Proof.
  induction l as [|y l IH]; simpl; [discriminate|].
  destruct (f y); auto.
Qed.

Lemma find_self_not_None (torrent : Torrent) (l : list Torrent) :
  torrent ∈ l -> List.find (find_cb torrent) l <> None.
Proof.
  intros Hin Hnone. apply list_elem_of_In in Hin.
  pose proof (find_none _ _ Hnone _ Hin) as Hf.
  unfold find_cb in Hf. rewrite !bool_decide_eq_true_2 in Hf by reflexivity.
  discriminate.
Qed.

(** An entry that shares the quality or the language of [torrent] does not
    pass the filter. *)
Lemma filter_cb_shared (torrent t : Torrent) :
  quality t = quality torrent \/ language t = language torrent ->
  filter_cb torrent t = false.
Proof.
  intros [H|H]; unfold filter_cb; rewrite H.
  - rewrite bool_decide_eq_true_2 by reflexivity. reflexivity.
  - rewrite (bool_decide_eq_true_2 (language torrent = language torrent)) by reflexivity.
    apply andb_false_r.
Qed.

(** One iteration on a stored entry whose match has no more seeds: nothing
    changes. *)
Lemma forEach_body_keeps (st : arrays) (stored m : Torrent) :
  List.find (find_cb stored) (torrents_of st) = Some m ->
  seeds m <= seeds stored ->
  forEach_body st stored = st.
Proof.
  intros Hfind Hle. unfold forEach_body. rewrite Hfind.
  destruct (Z.ltb_spec (seeds stored) (seeds m)); [lia | reflexivity].
Qed.

(** One iteration on a stored entry whose match has more seeds. *)
Lemma forEach_body_replaces (st : arrays) (stored m : Torrent) :
  List.find (find_cb stored) (torrents_of st) = Some m ->
  seeds stored < seeds m ->
  forEach_body st stored =
    Split (torrents_of st)
          (List.filter (filter_cb stored) (newTorrents_of st) ++ [m]).
Proof.
  intros Hfind Hlt. unfold forEach_body. rewrite Hfind.
  destruct (Z.ltb_spec (seeds stored) (seeds m)); [reflexivity | lia].
Qed.

(** The stored entry never enters the result when it has a match with no
    more seeds than itself: the merged set is the incoming set. *)
Lemma updateTorrents_match_keeps_incoming (torrents : list Torrent) (stored m : Torrent) :
  List.find (find_cb stored) torrents = Some m ->
  seeds m <= seeds stored ->
  _updateTorrents torrents [stored] = torrents.
Proof.
  intros Hfind Hle. unfold _updateTorrents. simpl.
  rewrite (forEach_body_keeps (Shared torrents) stored m Hfind Hle). reflexivity.
Qed.

(** The replacement branch drops every entry that shares the quality or the
    language of the stored entry, the match apart. *)
Lemma updateTorrents_replacement_overdeletes (torrents : list Torrent) (stored m t : Torrent) :
  List.find (find_cb stored) torrents = Some m ->
  seeds stored < seeds m ->
  quality t = quality stored \/ language t = language stored ->
  t <> m ->
  t ∉ _updateTorrents torrents [stored].
Proof.
  intros Hfind Hlt Hshare Hne. unfold _updateTorrents. simpl.
  rewrite (forEach_body_replaces (Shared torrents) stored m Hfind Hlt). simpl.
  intros Hin. apply elem_of_app in Hin as [Hin|Hin].
  - apply list_elem_of_In, filter_In in Hin as [_ Hcb].
    rewrite (filter_cb_shared _ _ Hshare) in Hcb. discriminate.
  - apply list_elem_of_singleton in Hin. contradiction.
Qed.

(** A stored entry without a match is pushed, and dropped again when a later
    stored entry sharing its quality or language triggers a replacement. *)
Lemma updateTorrents_unmatched_then_dropped (torrents : list Torrent) (s1 s2 m : Torrent) :
  List.find (find_cb s1) torrents = None ->
  List.find (find_cb s2) torrents = Some m ->
  seeds s2 < seeds m ->
  quality s1 = quality s2 \/ language s1 = language s2 ->
  s1 ∉ _updateTorrents torrents [s1; s2].
Proof.
  intros Hnone Hfind Hlt Hshare. unfold _updateTorrents. simpl.
  assert (forEach_body (Shared torrents) s1 = Shared (torrents ++ [s1])) as ->.
  { unfold forEach_body. simpl. rewrite Hnone. reflexivity. }
  rewrite (forEach_body_replaces _ s2 m) by (simpl; auto using find_app_Some).
  simpl. intros Hin. apply elem_of_app in Hin as [Hin|Hin].
  - apply list_elem_of_In, filter_In in Hin as [_ Hcb].
    rewrite (filter_cb_shared _ _ Hshare) in Hcb. discriminate.
  - apply list_elem_of_singleton in Hin. subst m.
    apply find_some in Hfind as [Hin _].
    apply list_elem_of_In in Hin.
    exact (find_self_not_None s1 torrents Hin Hnone).
Qed.

(** *** The scenarios *)

Definition en_720p_10 : Torrent :=
  {| quality := "720p"; language := "en"; url := "magnet:new-720"; seeds := 10; peers := 3 |}.
Definition en_720p_50 : Torrent :=
  {| quality := "720p"; language := "en"; url := "magnet:old-720"; seeds := 50; peers := 9 |}.
Definition en_720p_100 : Torrent :=
  {| quality := "720p"; language := "en"; url := "magnet:new-720"; seeds := 100; peers := 9 |}.
Definition en_1080p_20 : Torrent :=
  {| quality := "1080p"; language := "en"; url := "magnet:new-1080"; seeds := 20; peers := 4 |}.
Definition en_1080p_5 : Torrent :=
  {| quality := "1080p"; language := "en"; url := "magnet:old-1080"; seeds := 5; peers := 1 |}.
Definition en_720p_5 : Torrent :=
  {| quality := "720p"; language := "en"; url := "magnet:old-720"; seeds := 5; peers := 1 |}.

(** C1 (seed tie-break), evaluated on the spec's scenario: the store holds
    720p/en with 50 seeds and the scrape brings 720p/en with 10 seeds.  The
    claim wants the stored 50-seed entry in the merged set; the code returns
    the incoming set untouched, so the merged set holds the 10-seed entry
    and not the stored one. *)
Theorem updateTorrents_better_stored_entry_not_kept :
  _updateTorrents [en_720p_10] [en_720p_50] = [en_720p_10]
  /\ en_720p_50 ∉ _updateTorrents [en_720p_10] [en_720p_50].
Proof.
  assert (_updateTorrents [en_720p_10] [en_720p_50] = [en_720p_10]) as Heq.
  { apply (updateTorrents_match_keeps_incoming _ _ en_720p_10).
    - reflexivity.
    - simpl. lia. }
  split; [exact Heq|]. rewrite Heq.
  intros Hin. apply list_elem_of_singleton in Hin. discriminate.
Qed.

(** C2 (conjunctive removal), evaluated where the replacement branch runs:
    the scrape brings 720p/en (100 seeds) and 1080p/en (20 seeds), the store
    holds 720p/en (50 seeds).  The claim wants the 1080p/en entry, which
    differs in quality from the stored entry, to survive the removal; the
    filter keeps only entries differing in quality and in language, so the
    1080p/en entry is removed and the result is the 720p/en entry alone. *)
Theorem updateTorrents_removal_drops_other_quality :
  _updateTorrents [en_720p_100; en_1080p_20] [en_720p_50] = [en_720p_100]
  /\ quality en_1080p_20 <> quality en_720p_50
  /\ en_1080p_20 ∉ _updateTorrents [en_720p_100; en_1080p_20] [en_720p_50].
Proof.
  split; [reflexivity|]. split; [discriminate|].
  apply (updateTorrents_replacement_overdeletes _ _ en_720p_100).
  - reflexivity.
  - simpl. lia.
  - right. reflexivity.
  - discriminate.
Qed.

(** C3 (no-loss), evaluated where an unmatched stored entry precedes a
    replaced one: the scrape brings 720p/en (10 seeds) only, the store holds
    1080p/en (5 seeds) and 720p/en (5 seeds).  The claim wants the stored
    1080p/en entry, which has no incoming match, in the merged set; it is
    pushed and then removed by the filter of the next iteration, so the
    result is the incoming 720p/en entry alone. *)
Theorem updateTorrents_unmatched_stored_entry_lost :
  List.find (find_cb en_1080p_5) [en_720p_10] = None
  /\ _updateTorrents [en_720p_10] [en_1080p_5; en_720p_5] = [en_720p_10]
  /\ en_1080p_5 ∉ _updateTorrents [en_720p_10] [en_1080p_5; en_720p_5].
Proof.
  split; [reflexivity|]. split; [reflexivity|].
  apply (updateTorrents_unmatched_then_dropped _ _ _ en_720p_10).
  - reflexivity.
  - reflexivity.
  - simpl. lia.
  - right. reflexivity.
Qed.

End LegacyMovieHelper.

(** ** ShowHelper.js, first document: shows *)

Module ShowHelper.

(** A torrent of one quality of an episode. *)
Record EpTorrent : Type := mkEpTorrent {
  url : string;
  seeds : Z;
  peers : Z
}.

#[global] Instance EpTorrent_eq_dec : EqDecision EpTorrent.
Proof. solve_decision. Defined.

(** [torrents] is the object indexed by ['480p'], ['720p'], ['1080p']. *)
Record Episode : Type := mkEpisode {
  season : Z;
  episode : Z;
  first_aired : Z;
  ep_title : string;
  torrents : gmap string EpTorrent
}.

#[global] Instance Episode_eq_dec : EqDecision Episode.
Proof. solve_decision. Defined.

(** The fields of a show document that the merge reads or writes. *)
Record Show : Type := mkShow {
  imdb_id : string;
  title : string;
  latest_episode : Z;
  num_seasons : nat;
  episodes : list Episode
}.

Definition set_num_seasons (s : Show) (n : nat) : Show :=
  {| imdb_id := imdb_id s; title := title s; latest_episode := latest_episode s;
     num_seasons := n; episodes := episodes s |}.

Definition set_latest_episode (s : Show) (t : Z) : Show :=
  {| imdb_id := imdb_id s; title := title s; latest_episode := t;
     num_seasons := num_seasons s; episodes := episodes s |}.

Definition set_episodes (s : Show) (es : list Episode) : Show :=
  {| imdb_id := imdb_id s; title := title s; latest_episode := latest_episode s;
     num_seasons := num_seasons s; episodes := es |}.

(** *** The store ([this.Model]), keyed by [_id], which is the imdb id *)

Abbreviation db := (gmap string Show).

(** [this.Model.distinct('episodes.season', {_id: id}).exec()]. *)
Definition distinct_episodes_season (id : string) : M db (list Z) :=
  fun d => (match d !! id with
            | Some doc => remove_dups (season <$> episodes doc)
            | None => []
            end, d).

Definition _updateNumSeasons (show : Show) : M db Show :=
  saved ← findOneAndUpdate (imdb_id show) show;
  distinct ← distinct_episodes_season (imdb_id saved);
  let saved := set_num_seasons saved (length distinct) in
  findOneAndUpdate (imdb_id saved) saved.

Definition _updateEpisode (matching found : Episode) (show : Show)
    (quality : string) : Show :=
  let index := indexOf (episodes show) matching in
  let foundTorrents := torrents found !! quality in
  let matchingTorrents := torrents matching !! quality in
  (* the assignments below rebind the local name only *)
  let matchingTorrents :=
    match foundTorrents, matchingTorrents with
    | Some f, Some m =>
        let update := (seeds m <? seeds f) || bool_decide (url f = url m) in
        if update then Some f else Some m
    | Some f, None => Some f
    | _, _ => matchingTorrents
    end in
  set_episodes show (splice1 (episodes show) index matching).

(** Callback of [s.episodes.find]:
    [s => s.season === e.season && s.episode === e.episode]. *)
Definition same_number (e s' : Episode) : bool :=
  bool_decide (season s' = season e) && bool_decide (episode s' = episode e).

(** Callback of [found.episodes.map(e => ...)]; [s] is updated in place, so
    it is threaded through the iteration. *)
Definition merge_cb (s : Show) (e : Episode) : Show :=
  let matching := List.find (same_number e) (episodes s) in
  let s := if latest_episode s <? first_aired e
           then set_latest_episode s (first_aired e) else s in
  match matching with
  | None => set_episodes s (episodes s ++ [e])
  | Some matching =>
      let s := _updateEpisode matching e s "480p" in
      let s := _updateEpisode matching e s "720p" in
      _updateEpisode matching e s "1080p"
  end.

(** The store calls of the model cannot throw, so the [catch] branch, which
    logs and yields [undefined], is not reached; the result is kept optional
    as the source's return type is. *)
Definition _updateEpisodes (show : Show) : M db (option Show) :=
  found ← findOne (imdb_id show);
  match found with
  | None =>
      newShow ← save imdb_id show;
      r ← _updateNumSeasons newShow;
      mret (Some r)
  | Some found =>
      let s := fold_left merge_cb (episodes found) show in
      r ← _updateNumSeasons s;
      mret (Some r)
  end.

(** *** Images and the Trakt summary of a show *)

Record TmdbImage : Type := mkTmdbImage {
  iso_639_1 : option string;   (* [None] is [null] *)
  file_path : string;
  width : Z
}.

Record TmdbImages : Type := mkTmdbImages {
  posters : list TmdbImage;
  backdrops : list TmdbImage
}.

Record FanartImage : Type := mkFanartImage { fanart_url : string }.

(** A Fanart key that is absent is [None]. *)
Record FanartShowImages : Type := mkFanartShowImages {
  showbackground : option (list FanartImage);
  tvposter : option (list FanartImage);
  hdtvlogo : option (list FanartImage);
  tvthumb : option (list FanartImage)
}.

(** What [_getTmdbImages] resolves with; [None] is [null]. *)
Record TmdbShowImages : Type := mkTmdbShowImages {
  tmdb_backdrop : option string;
  tmdb_poster : option string
}.

Record Images : Type := mkImages {
  backdrop : string;
  poster : string;
  logo : string;
  thumb : string
}.

Record TraktIds : Type := mkTraktIds {
  ids_imdb : option string;
  ids_tmdb : option Z;
  ids_tvdb : option Z;
  ids_slug : string
}.

(** [traktShow.airs]; a key the object lacks is [None]. *)
Record TraktAirs : Type := mkTraktAirs {
  airs_day : option string;
  airs_time : option string
}.

(** The summary fields the helper inspects, reads through or turns into the
    rating; [released], [certification], [overview], [runtime], [network],
    [country] and [status] are copied through and not modelled.  A summary
    without [airs] has [None] there. *)
Record TraktShow : Type := mkTraktShow {
  ids : TraktIds;
  trakt_title : string;
  rating : Q;
  votes : Z;
  genres : option (list string);
  airs : option TraktAirs
}.

Record Watcher : Type := mkWatcher { username : string }.

Record Rating : Type := mkRating {
  rating_votes : Z;
  watching : Z;
  percentage : Z
}.

(** The object [getTraktInfo] resolves with. *)
Record ShowInfo : Type := mkShowInfo {
  info_imdb_id : string;
  info_tmdb_id : Z;
  info_tvdb_id : Z;
  info_title : string;
  info_slug : string;
  info_rating : Rating;
  info_images : Images;
  info_genres : list string;
  info_air_day : option string;
  info_air_time : option string;
  info_last_updated : Z
}.

(** Reading [.file_path] of the first filtered entry: a [TypeError] when the
    filtered array is empty, since [[][0]] is [undefined]. *)
Definition first_or_throw {A} (l : list A) (prop : string) : promise A error :=
  match l with
  | x :: _ => Resolved x
  | [] => Rejected (TypeError ("Cannot read properties of undefined (reading '" +:+ prop +:+ "')"))
  end.

(** [a[0].url] for a Fanart key. *)
Definition first_url (a : option (list FanartImage)) : promise string error :=
  match a with
  | None => Rejected (TypeError "Cannot read properties of undefined (reading '0')")
  | Some l => x ← first_or_throw l "url"; mret (fanart_url x)
  end.

(** Callback of both filters:
    [x => x.iso_639_1 === 'en' || x.iso_639_1 === null]. *)
Definition lang_cb (x : TmdbImage) : bool :=
  match iso_639_1 x with
  | Some l => bool_decide (l = "en")
  | None => true
  end.

Section Providers.

Variable tmdb_tv_images : Z -> promise TmdbImages error.
Variable fanart_getShowImages : Z -> promise FanartShowImages error.
Variable trakt_shows_summary : string -> promise (option TraktShow) error.
Variable trakt_shows_watching : string -> promise (option (list Watcher)) error.
(** [Number(new Date())]. *)
Variable now : Z.

Definition _getTmdbImages (tmdbId : Z) : promise TmdbShowImages error :=
  i ← tmdb_tv_images tmdbId;
  let baseUrl := "http://image.tmdb.org/t/p/w" in
  poster ← first_or_throw (List.filter lang_cb (posters i)) "file_path";
  let posterPath := file_path poster in
  let posterWidth := width poster in
  backdrop ← first_or_throw (List.filter lang_cb (backdrops i)) "file_path";
  let backdropPath := file_path backdrop in
  let backdropWidth := width backdrop in
  (* both objects are truthy here, so neither ternary yields [null] *)
  mret {| tmdb_backdrop := Some (baseUrl +:+ pretty backdropWidth +:+ backdropPath);
          tmdb_poster := Some (baseUrl +:+ pretty posterWidth +:+ posterPath) |}.

Definition _getFanartImages (tvdbId : Z) : promise Images error :=
  i ← fanart_getShowImages tvdbId;
  b ← first_url (showbackground i);
  p ← first_url (tvposter i);
  l ← first_url (hdtvlogo i);
  t ← first_url (tvthumb i);
  mret {| backdrop := b; poster := p; logo := l; thumb := t |}.

Definition getImages (tmdbId tvdbId : Z) : promise Images error :=
  tmdbImages ← _getTmdbImages tmdbId;
  images ← _getFanartImages tvdbId;
  let images :=
    match tmdb_backdrop tmdbImages with
    | Some b => {| backdrop := b; poster := poster images;
                   logo := logo images; thumb := thumb images |}
    | None => images
    end in
  let images :=
    match tmdb_poster tmdbImages with
    | Some p => {| backdrop := backdrop images; poster := p;
                   logo := logo images; thumb := thumb images |}
    | None => images
    end in
  mret images.

(** [const { imdb, tmdb, tvdb } = traktShow.ids] throws on a [null] summary. *)
Definition read_ids (traktShow : option TraktShow) : promise TraktIds error :=
  match traktShow with
  | Some t => Resolved (ids t)
  | None => Rejected (TypeError "Cannot read properties of null (reading 'ids')")
  end.

(** [traktShow.airs.day] throws on a summary without [airs]. *)
Definition read_airs (a : option TraktAirs) : promise TraktAirs error :=
  match a with
  | Some x => Resolved x
  | None => Rejected (TypeError "Cannot read properties of undefined (reading 'day')")
  end.

(** Every exception of the [try] block reaches [catch], which rejects with
    the same error; falling off the end of the function resolves with
    [undefined], here [None].  The properties of the object literal are
    evaluated in order: the images are awaited before [airs] is read. *)
Definition getTraktInfo (slug : string) : promise (option ShowInfo) error :=
  traktShow ← trakt_shows_summary slug;
  traktWatchers ← trakt_shows_watching slug;
  i ← read_ids traktShow;
  match traktShow, ids_imdb i, ids_tmdb i, ids_tvdb i with
  | Some t, Some imdb, Some tmdb, Some tvdb =>
      if truthy_string (Some imdb) && truthy_number (Some tmdb)
         && truthy_number (Some tvdb)
      then
        images ← getImages tmdb tvdb;
        air ← read_airs (airs t);
        mret (Some {|
          info_imdb_id := imdb;
          info_tmdb_id := tmdb;
          info_tvdb_id := tvdb;
          info_title := trakt_title t;
          info_slug := ids_slug (ids t);
          info_rating := {|
            rating_votes := votes t;
            watching := match traktWatchers with
                        | Some w => Z.of_nat (length w)
                        | None => 0
                        end;
            percentage := Math_round (rating t * 10)
          |};
          info_images := images;
          info_genres := match genres t with Some g => g | None => ["unknown"] end;
          info_air_day := airs_day air;
          info_air_time := airs_time air;
          info_last_updated := now
        |})
      else mret None
  | _, _, _, _ => mret None
  end.

End Providers.

(** *** The episode merge leaves every incoming episode as it came *)

Lemma indexOf_from_lookup {A} `{EqDecision A} (l : list A) (x : A) (i : Z) :
  x ∈ l -> exists n : nat, indexOf_from l x i = i + Z.of_nat n /\ l !! n = Some x.
Proof.
  revert i. induction l as [|y l IH]; intros i Hin.
  - by apply elem_of_nil in Hin.
  - simpl. destruct (decide (y = x)) as [->|Hne].
    + exists 0%nat. split; [lia | reflexivity].
    + apply elem_of_cons in Hin as [Heq|Hin]; [congruence|].
      destruct (IH (i + 1) Hin) as (n & Hn & Hl).
      exists (S n). split; [lia | exact Hl].
Qed.

(** Overwriting the slot of [x] with [x]. *)
Lemma splice1_indexOf {A} `{EqDecision A} (l : list A) (x : A) :
  x ∈ l -> splice1 l (indexOf l x) x = l.
Proof.
  intros Hin. destruct (indexOf_from_lookup l x 0 Hin) as (n & Hn & Hl).
  unfold indexOf, splice1. rewrite Hn.
  pose proof (lookup_lt_Some _ _ _ Hl) as Hlt.
  destruct (Z.ltb_spec (0 + Z.of_nat n) 0); [lia|].
  replace (Z.to_nat (Z.min (0 + Z.of_nat n) (Z.of_nat (length l)))) with n by lia.
  by apply take_drop_middle.
Qed.

Lemma set_episodes_same (s : Show) : set_episodes s (episodes s) = s.
Proof. by destruct s. Qed.

(** The reconciled torrent stays in a local name, so the call gives the
    show back unchanged. *)
Lemma updateEpisode_unchanged (matching found : Episode) (show : Show) (quality : string) :
  matching ∈ episodes show -> _updateEpisode matching found show quality = show.
Proof.
  intros Hin. unfold _updateEpisode. cbv zeta.
  rewrite (splice1_indexOf _ _ Hin). apply set_episodes_same.
Qed.

Lemma merge_cb_episodes (s : Show) (e : Episode) :
  episodes (merge_cb s e) =
    match List.find (same_number e) (episodes s) with
    | Some _ => episodes s
    | None => episodes s ++ [e]
    end.
Proof.
  unfold merge_cb. cbv zeta.
  set (s1 := if latest_episode s <? first_aired e then _ else s).
  assert (episodes s1 = episodes s) as Hs1 by (subst s1; by case_match).
  destruct (List.find (same_number e) (episodes s)) as [m|] eqn:Hfind.
  - apply find_some in Hfind as [Hin _]. apply list_elem_of_In in Hin.
    rewrite <- Hs1 in Hin.
    rewrite (updateEpisode_unchanged m e s1 "480p" Hin).
    rewrite (updateEpisode_unchanged m e s1 "720p" Hin).
    rewrite (updateEpisode_unchanged m e s1 "1080p" Hin).
    exact Hs1.
  - simpl. by rewrite Hs1.
Qed.

Lemma merge_cb_imdb_id (s : Show) (e : Episode) : imdb_id (merge_cb s e) = imdb_id s.
Proof.
  unfold merge_cb, _updateEpisode. cbv zeta.
  repeat case_match; reflexivity.
Qed.

Lemma merge_imdb_id (stored : list Episode) (s : Show) :
  imdb_id (fold_left merge_cb stored s) = imdb_id s.
Proof.
  revert s. induction stored as [|e stored IH]; intros s; simpl; [reflexivity|].
  by rewrite IH, merge_cb_imdb_id.
Qed.

Lemma merge_keeps_incoming (stored : list Episode) (s : Show) :
  exists extra, episodes (fold_left merge_cb stored s) = episodes s ++ extra
                /\ forall e, e ∈ extra -> e ∈ stored.
Proof.
  revert s. induction stored as [|e stored IH]; intros s; simpl.
  - exists []. split; [by rewrite app_nil_r | intros e He; by apply elem_of_nil in He].
  - destruct (IH (merge_cb s e)) as (extra & Heq & Hsub).
    rewrite merge_cb_episodes in Heq.
    destruct (List.find (same_number e) (episodes s)).
    + exists extra. split; [exact Heq|]. intros x Hx. right. by apply Hsub.
    + exists (e :: extra). split; [by rewrite Heq, <- app_assoc|].
      intros x Hx. apply elem_of_cons in Hx as [->|Hx]; [left | right; by apply Hsub].
Qed.

(** *** [num_seasons] after a merge *)

Lemma length_remove_dups_size (l : list Z) :
  length (remove_dups l) = size (list_to_set l : gset Z).
Proof.
  rewrite <- (size_list_to_set (C := gset Z) (remove_dups l))
    by apply NoDup_remove_dups.
  f_equal. apply set_eq. intros x.
  by rewrite !elem_of_list_to_set, elem_of_remove_dups.
Qed.

Lemma updateNumSeasons_run (show : Show) (d : db) :
  let saved := set_num_seasons show (length (remove_dups (season <$> episodes show))) in
  _updateNumSeasons show d = (saved, <[imdb_id show := saved]> (<[imdb_id show := show]> d)).
Proof.
  unfold _updateNumSeasons, mbind, M_bind, findOneAndUpdate, distinct_episodes_season.
  simpl. by rewrite lookup_insert_eq.
Qed.

(** *** The scenario of the episode merge *)

Definition s1e1_incoming : Episode :=
  {| season := 1; episode := 1; first_aired := 1500000000; ep_title := "Pilot";
     torrents := {[ "720p" := {| url := "magnet:new"; seeds := 10; peers := 2 |} ]} |}.

Definition s1e1_stored : Episode :=
  {| season := 1; episode := 1; first_aired := 1500000000; ep_title := "Pilot";
     torrents := {[ "720p" := {| url := "magnet:old"; seeds := 50; peers := 7 |} ]} |}.

Definition show_incoming : Show :=
  {| imdb_id := "tt0000001"; title := "A show"; latest_episode := 0;
     num_seasons := 0; episodes := [s1e1_incoming] |}.

Definition show_stored : Show :=
  {| imdb_id := "tt0000001"; title := "A show"; latest_episode := 1500000000;
     num_seasons := 1; episodes := [s1e1_stored] |}.

Definition db_stored : db := {[ "tt0000001" := show_stored ]}.

(** C4 (per-quality reconciliation of a matched episode).  The claim wants
    the stored torrent of a quality to replace the incoming one when it has
    strictly more seeds or the same URL.  In the code the choice is assigned
    to a local name and the matched episode is spliced back as it was: for
    every incoming show and every stored episode list the merged list starts
    with the incoming episodes verbatim.  On the scenario (stored 720p with
    50 seeds, incoming 720p with 10 seeds for the same season and episode)
    the persisted episode carries the incoming 10-seed torrent. *)
Theorem updateEpisodes_keeps_incoming_torrent :
  (forall (show : Show) (stored : list Episode),
     exists extra, episodes (fold_left merge_cb stored show) = episodes show ++ extra)
  /\ (exists saved d',
        _updateEpisodes show_incoming db_stored = (Some saved, d')
        /\ d' !! "tt0000001" = Some saved
        /\ episodes saved = [s1e1_incoming]
        /\ (episodes saved !! 0%nat) ≫= (fun e => torrents e !! "720p")
           = Some {| url := "magnet:new"; seeds := 10; peers := 2 |}
        /\ torrents s1e1_stored !! "720p"
           = Some {| url := "magnet:old"; seeds := 50; peers := 7 |}).
Proof.
  split.
  - intros show stored. destruct (merge_keeps_incoming stored show) as (extra & Heq & _).
    by exists extra.
  - unfold _updateEpisodes, mbind, M_bind, findOne.
    assert (db_stored !! imdb_id show_incoming = Some show_stored) as -> by reflexivity.
    rewrite updateNumSeasons_run. cbv zeta.
    eexists _, _. split; [reflexivity|].
    split; [by rewrite merge_imdb_id, lookup_insert_eq|].
    split; [reflexivity|]. split; reflexivity.
Qed.

(** One iteration of the merge, in closed form. *)
Lemma merge_cb_eq (s : Show) (e : Episode) :
  merge_cb s e =
    let s1 := if latest_episode s <? first_aired e
              then set_latest_episode s (first_aired e) else s in
    match List.find (same_number e) (episodes s) with
    | Some _ => s1
    | None => set_episodes s1 (episodes s1 ++ [e])
    end.
Proof.
  unfold merge_cb. cbv zeta.
  set (s1 := if latest_episode s <? first_aired e then _ else s).
  assert (episodes s1 = episodes s) as Hs1 by (subst s1; by case_match).
  destruct (List.find (same_number e) (episodes s)) as [m|] eqn:Hfind; [|reflexivity].
  apply find_some in Hfind as [Hin _]. apply list_elem_of_In in Hin.
  rewrite <- Hs1 in Hin.
  rewrite (updateEpisode_unchanged m e s1 "480p" Hin).
  rewrite (updateEpisode_unchanged m e s1 "720p" Hin).
  by rewrite (updateEpisode_unchanged m e s1 "1080p" Hin).
Qed.

(** The merge neither reads nor writes [num_seasons]. *)
Lemma merge_cb_set_num_seasons (s : Show) (e : Episode) (n : nat) :
  merge_cb (set_num_seasons s n) e = set_num_seasons (merge_cb s e) n.
Proof.
  rewrite !merge_cb_eq. cbv zeta. simpl.
  destruct (latest_episode s <? first_aired e),
    (List.find (same_number e) (episodes s)); reflexivity.
Qed.

Lemma merge_set_num_seasons (stored : list Episode) (s : Show) (n : nat) :
  fold_left merge_cb stored (set_num_seasons s n)
  = set_num_seasons (fold_left merge_cb stored s) n.
Proof.
  revert s. induction stored as [|e stored IH]; intros s; simpl; [reflexivity|].
  by rewrite merge_cb_set_num_seasons, IH.
Qed.

(** What [_updateEpisodes] hands to [_updateNumSeasons]: the incoming show
    when the store has none under its id, else the incoming show with the
    stored episodes merged into it. *)
Definition merged_show (show : Show) (d : db) : Show :=
  match d !! imdb_id show with
  | Some found => fold_left merge_cb (episodes found) show
  | None => show
  end.

(** C7 (numSeasons invariant): whichever path [_updateEpisodes] takes, the
    first save of a new show or the merge into a stored one, the record it
    returns and persists under the show's id is the merged show itself (the
    incoming show for a new one), with its episodes, and with [num_seasons]
    set to the number of distinct season numbers among these episodes.
    That number is the length of the store's distinct-values answer for the
    record just written, and the [num_seasons] the incoming record came
    with has no influence on the outcome: it is recomputed, never
    hand-set. *)
Theorem updateEpisodes_num_seasons (show : Show) (d : db) :
  let merged := merged_show show d in
  let saved :=
    set_num_seasons merged (size (list_to_set (season <$> episodes merged) : gset Z)) in
  _updateEpisodes show d = (Some saved, <[imdb_id show := saved]> d)
  /\ (<[imdb_id show := saved]> d : db) !! imdb_id show = Some saved
  /\ episodes saved = episodes merged
  /\ (forall e, e ∈ episodes show -> e ∈ episodes saved)
  /\ num_seasons saved = size (list_to_set (season <$> episodes saved) : gset Z)
  /\ num_seasons saved
     = length (fst (distinct_episodes_season (imdb_id show)
                      (<[imdb_id show := merged]> d)))
  /\ (forall n, _updateEpisodes (set_num_seasons show n) d = _updateEpisodes show d).
Proof.
  assert (forall s : Show,
            _updateEpisodes s d =
              (Some (set_num_seasons (merged_show s d)
                       (size (list_to_set (season <$> episodes (merged_show s d)) : gset Z))),
               <[imdb_id s := set_num_seasons (merged_show s d)
                   (size (list_to_set (season <$> episodes (merged_show s d)) : gset Z))]> d))
    as Hrun.
  { intros s. unfold _updateEpisodes, merged_show, mbind, M_bind, findOne.
    destruct (d !! imdb_id s) as [found|].
    - rewrite updateNumSeasons_run. cbv zeta. unfold mret, M_ret.
      rewrite merge_imdb_id, insert_insert_eq, length_remove_dups_size. reflexivity.
    - unfold save, mret, M_ret. rewrite updateNumSeasons_run. cbv zeta.
      simpl. rewrite !insert_insert_eq, length_remove_dups_size. reflexivity. }
  intros merged saved. subst merged saved.
  split; [apply Hrun|]. split; [apply lookup_insert_eq|]. split; [reflexivity|].
  split; [|split; [reflexivity|split]].
  - intros e He. simpl. unfold merged_show.
    destruct (d !! imdb_id show) as [found|]; [|exact He].
    destruct (merge_keeps_incoming (episodes found) show) as (extra & -> & _).
    apply elem_of_app. by left.
  - unfold distinct_episodes_season. simpl. rewrite lookup_insert_eq.
    by rewrite length_remove_dups_size.
  - intros n. rewrite !Hrun. unfold merged_show. simpl.
    destruct (d !! imdb_id show) as [found|]; [|reflexivity].
    by rewrite merge_set_num_seasons.
Qed.

(** *** The metadata fetch of a show *)

Section ProviderFacts.

Variable tmdb_tv_images : Z -> promise TmdbImages error.
Variable fanart_getShowImages : Z -> promise FanartShowImages error.
Variable trakt_shows_summary : string -> promise (option TraktShow) error.
Variable trakt_shows_watching : string -> promise (option (list Watcher)) error.
Variable now : Z.

Lemma first_or_throw_nil {A} (prop : string) :
  first_or_throw (@nil A) prop =
    Rejected (TypeError ("Cannot read properties of undefined (reading '" +:+ prop +:+ "')")).
Proof. reflexivity. Qed.

(** [_getTmdbImages] throws as soon as one of the two filtered arrays is
    empty: the property is read before the guard of the result object. *)
Lemma getTmdbImages_throws (tmdbId : Z) (i : TmdbImages) :
  tmdb_tv_images tmdbId = Resolved i ->
  List.filter lang_cb (posters i) = [] \/ List.filter lang_cb (backdrops i) = [] ->
  _getTmdbImages tmdb_tv_images tmdbId =
    Rejected (TypeError "Cannot read properties of undefined (reading 'file_path')").
Proof.
  intros Hi Hempty. unfold _getTmdbImages. rewrite Hi. simpl.
  destruct Hempty as [Hp|Hb].
  - rewrite Hp. reflexivity.
  - rewrite Hb. destruct (List.filter lang_cb (posters i)); reflexivity.
Qed.



(** C10: whenever TMDB answers a show's image request with no poster tagged
    'en' or untagged (likewise with no such backdrop), [_getTmdbImages]
    throws a [TypeError] on reading [file_path] of [undefined], before the
    guard of its result applies; [getImages] does not handle it, and
    [getTraktInfo], whose summary passed the id guard, rejects with the
    same error whatever Fanart would have returned. *)
Theorem getTraktInfo_rejects_on_empty_tmdb_selection
    (slug : string) (t : TraktShow) (w : option (list Watcher))
    (imdb : string) (tmdb tvdb : Z) (i : TmdbImages) :
  trakt_shows_summary slug = Resolved (Some t) ->
  trakt_shows_watching slug = Resolved w ->
  ids_imdb (ids t) = Some imdb -> imdb <> "" ->
  ids_tmdb (ids t) = Some tmdb -> tmdb <> 0 ->
  ids_tvdb (ids t) = Some tvdb -> tvdb <> 0 ->
  tmdb_tv_images tmdb = Resolved i ->
  List.filter lang_cb (posters i) = [] \/ List.filter lang_cb (backdrops i) = [] ->
  let e := TypeError "Cannot read properties of undefined (reading 'file_path')" in
  _getTmdbImages tmdb_tv_images tmdb = Rejected e
  /\ getImages tmdb_tv_images fanart_getShowImages tmdb tvdb = Rejected e
  /\ getTraktInfo tmdb_tv_images fanart_getShowImages trakt_shows_summary
       trakt_shows_watching now slug = Rejected e.
Proof.
  intros Hs Hw Himdb Himdb0 Htmdb Htmdb0 Htvdb Htvdb0 Hi Hempty e.
  pose proof (getTmdbImages_throws tmdb i Hi Hempty) as Hthrow. fold e in Hthrow.
  assert (getImages tmdb_tv_images fanart_getShowImages tmdb tvdb = Rejected e) as Himg.
  { unfold getImages. rewrite Hthrow. reflexivity. }
  split; [exact Hthrow|]. split; [exact Himg|].
  unfold getTraktInfo. rewrite Hs, Hw. simpl. rewrite Himdb, Htmdb, Htvdb.
  unfold truthy_string, truthy_number.
  rewrite !bool_decide_eq_false_2 by assumption. simpl.
  rewrite Himg. reflexivity.
Qed.

End ProviderFacts.

(** *** Scenarios of the metadata fetch *)

Definition trakt_show_ok : TraktShow :=
  {| ids := {| ids_imdb := Some "tt0000001"; ids_tmdb := Some 1399;
               ids_tvdb := Some 121361; ids_slug := "a-show" |};
     trakt_title := "A show"; rating := 87 # 10; votes := 1200;
     genres := Some ["drama"];
     airs := Some {| airs_day := Some "Sunday"; airs_time := Some "21:00" |} |}.


(** TMDB knows one German poster and one English backdrop. *)
Definition tmdb_no_english_poster : TmdbImages :=
  {| posters := [ {| iso_639_1 := Some "de"; file_path := "/p.jpg"; width := 500 |} ];
     backdrops := [ {| iso_639_1 := Some "en"; file_path := "/b.jpg"; width := 1280 |} ] |}.

Definition fanart_complete : FanartShowImages :=
  {| showbackground := Some [ {| fanart_url := "http://fanart/bg.jpg" |} ];
     tvposter := Some [ {| fanart_url := "http://fanart/poster.jpg" |} ];
     hdtvlogo := Some [ {| fanart_url := "http://fanart/logo.png" |} ];
     tvthumb := Some [ {| fanart_url := "http://fanart/thumb.jpg" |} ] |}.

Lemma getTraktInfo_rejects_on_empty_tmdb_selection_witness :
  _getFanartImages (fun _ => Resolved fanart_complete) 121361
    = Resolved {| backdrop := "http://fanart/bg.jpg"; poster := "http://fanart/poster.jpg";
                  logo := "http://fanart/logo.png"; thumb := "http://fanart/thumb.jpg" |}
  /\ getTraktInfo (fun _ => Resolved tmdb_no_english_poster)
       (fun _ => Resolved fanart_complete)
       (fun _ => Resolved (Some trakt_show_ok))
       (fun _ => Resolved (Some [])) 0 "a-show"
     = Rejected (TypeError "Cannot read properties of undefined (reading 'file_path')").
Proof.
  split; [reflexivity|].
  apply (getTraktInfo_rejects_on_empty_tmdb_selection
           (fun _ => Resolved tmdb_no_english_poster)
           (fun _ => Resolved fanart_complete)
           (fun _ => Resolved (Some trakt_show_ok))
           (fun _ => Resolved (Some [])) 0 "a-show"
           trakt_show_ok (Some []) "tt0000001" 1399 121361 tmdb_no_english_poster);
    try reflexivity; try discriminate.
  left. reflexivity.
Defined.

End ShowHelper.

(** ** MovieHelper.js: movies *)

Module MovieHelper.

Record ImageSizes : Type := mkImageSizes {
  full : string;
  high : string;
  medium : string;
  thumb : string
}.

(** The value of one image field.  [AbstractHelper.DefaultImageSizes], the
    placeholder, is declared outside these sources: it is kept as a value of
    its own, whose JS truthiness is the parameter [placeholder_truthy] of
    the functions below.  [Undefined] is a key the object does not have. *)
Inductive image : Type :=
| Undefined
| DefaultImageSizes
| Sizes (s : ImageSizes).

Record Images : Type := mkImages {
  banner : image;
  backdrop : image;
  poster : image;
  logo : image
}.

Record Rating : Type := mkRating {
  stars : Q;
  votes : Z;
  watching : Z;
  percentage : Z
}.

Record Watched : Type := mkWatched {
  complete : bool;
  progress : Z
}.

Record Torrent : Type := mkTorrent {
  quality : string;
  language : string;
  url : string;
  seeds : Z;
  peers : Z
}.

(** A movie document.  [released], [certification], [synopsis], [runtime],
    [trailer] and [type] are copied through by every function and are not
    modelled.  A key that may be missing is optional. *)
Record Movie : Type := mkMovie {
  _id : string;
  imdbId : string;
  tmdbId : Z;
  slug : string;
  title : string;
  rating : Rating;
  images : Images;
  genres : list string;
  createdAt : Z;
  updatedAt : Z;
  torrents : option (list Torrent);
  watched : Watched;
  bookmarked : bool;
  bookmarkedOn : option Z;
  downloaded : option bool;
  downloading : option bool;
  downloadedOn : option Z
}.

(** [{...movie, images: i}]. *)
Definition with_images (movie : Movie) (i : Images) : Movie :=
  {| _id := _id movie; imdbId := imdbId movie; tmdbId := tmdbId movie;
     slug := slug movie; title := title movie; rating := rating movie;
     images := i; genres := genres movie; createdAt := createdAt movie;
     updatedAt := updatedAt movie; torrents := torrents movie;
     watched := watched movie; bookmarked := bookmarked movie;
     bookmarkedOn := bookmarkedOn movie; downloaded := downloaded movie;
     downloading := downloading movie; downloadedOn := downloadedOn movie |}.

(** [m.torrents = t]. *)
Definition set_torrents (m : Movie) (t : option (list Torrent)) : Movie :=
  {| _id := _id m; imdbId := imdbId m; tmdbId := tmdbId m;
     slug := slug m; title := title m; rating := rating m;
     images := images m; genres := genres m; createdAt := createdAt m;
     updatedAt := updatedAt m; torrents := t;
     watched := watched m; bookmarked := bookmarked m;
     bookmarkedOn := bookmarkedOn m; downloaded := downloaded m;
     downloading := downloading m; downloadedOn := downloadedOn m |}.

(** The seven assignments under "Keep old attributes that could change". *)
Definition keep_old_attributes (m found : Movie) : Movie :=
  {| _id := _id m; imdbId := imdbId m; tmdbId := tmdbId m;
     slug := slug m; title := title m; rating := rating m;
     images := images m; genres := genres m;
     createdAt := createdAt found;
     updatedAt := updatedAt m; torrents := torrents m;
     watched := watched found;
     bookmarked := bookmarked found;
     bookmarkedOn := bookmarkedOn found;
     downloaded := downloaded found;
     downloading := downloading found;
     downloadedOn := downloadedOn found |}.

Record TmdbImage : Type := mkTmdbImage {
  iso_639_1 : option string;   (* [None] is [null] *)
  file_path : string
}.

Record TmdbImages : Type := mkTmdbImages {
  posters : list TmdbImage;
  backdrops : list TmdbImage
}.

Record OmdbMovie : Type := mkOmdbMovie { Poster : option string }.

Record FanartImage : Type := mkFanartImage { fanart_url : string }.

(** A Fanart key that is absent is [None]; a present key holds an array. *)
Record FanartMovieImages : Type := mkFanartMovieImages {
  moviebanner : option (list FanartImage);
  moviebackground : option (list FanartImage);
  hdmovieclearart : option (list FanartImage);
  movieposter : option (list FanartImage);
  movielogo : option (list FanartImage);
  hdmovielogo : option (list FanartImage)
}.

Record TraktIds : Type := mkTraktIds {
  ids_imdb : option string;
  ids_tmdb : option Z;
  ids_slug : string
}.

Record TraktMovie : Type := mkTraktMovie {
  ids : TraktIds;
  trakt_title : string;
  trakt_rating : Q;
  trakt_votes : Z;
  trakt_genres : option (list string)
}.

Record Watcher : Type := mkWatcher { username : string }.

(** What travels down a rejected promise of the image chain: an error of a
    provider client, or the item [checkImages] threw. *)
Inductive thrown : Type :=
| ThrownError (e : error)
| ThrownItem (item : Movie).

Definition lang_cb (x : TmdbImage) : bool :=
  match iso_639_1 x with
  | Some l => bool_decide (l = "en")
  | None => true
  end.

(** The object literal repeated for each Fanart image. *)
Definition sizes_of_url (u : string) : ImageSizes :=
  {| full := u; high := u; medium := u; thumb := u |}.

(** [p.catch(handler)]. *)
Definition catch {A E E'} (p : promise A E) (handler : E -> promise A E') : promise A E' :=
  match p with
  | Resolved a => Resolved a
  | Rejected e => handler e
  end.

(** [String(err)] and the fields of an error that [getTraktInfo] reads. *)
Definition error_to_string (e : error) : string :=
  match e with
  | ProviderError _ _ m => "Error: " +:+ m
  | TypeError m => "TypeError: " +:+ m
  | PlainError m => "Error: " +:+ m
  end.

Definition error_path (e : error) : option string :=
  match e with ProviderError _ p _ => p | _ => None end.

Definition error_statusCode (e : error) : option Z :=
  match e with ProviderError c _ _ => c | _ => None end.

(** An array is truthy whenever the key is there, even when it is empty;
    [a.shift()] yields its first element, [undefined] on an empty array. *)
Definition truthy_array {A} (a : option (list A)) : bool :=
  match a with Some _ => true | None => false end.

Definition shift {A} (a : option (list A)) : option A :=
  match a with Some (x :: _) => Some x | _ => None end.

Section Helper.

(** Truthiness of [AbstractHelper.DefaultImageSizes]. *)
Variable placeholder_truthy : bool.
(** [AbstractHelper.checkImages(item)] hands the item back or throws it
    (the handlers recognise the thrown item by its ids); which of the two
    it does is this parameter. *)
Variable checkImages_passes : Movie -> bool.
(** [AbstractHelper._formatImdbImage] and [AbstractHelper._formatTorrents]. *)
Variable _formatImdbImage : string -> ImageSizes.
Variable _formatTorrents :
  option (list Torrent) -> option (list Torrent) -> option (list Torrent).
(** The provider clients of [../apiModules]. *)
Variable tmdb_movie_images : Z -> promise TmdbImages error.
Variable omdb_byId : string -> promise OmdbMovie error.
Variable fanart_getMovieImages : Z -> promise FanartMovieImages error.
Variable trakt_movies_summary : string -> promise (option TraktMovie) error.
Variable trakt_movies_watching : string -> promise (option (list Watcher)) error.
(** The two evaluations of [Number(new Date())], one for [createdAt] and
    one for [updatedAt]. *)
Variable now_createdAt : Z.
Variable now_updatedAt : Z.

(** JS truthiness of an image field, as [!movie.images.x] tests it. *)
Definition truthy (v : image) : bool :=
  match v with
  | Undefined => false
  | DefaultImageSizes => placeholder_truthy
  | Sizes _ => true
  end.

Definition checkImages (item : Movie) : promise Movie thrown :=
  if checkImages_passes item then Resolved item else Rejected (ThrownItem item).

(** A provider call followed by [.then(i => ...)]. *)
Definition then_ {R} (p : promise R error) (k : R -> promise Movie thrown) :
    promise Movie thrown :=
  match p with
  | Resolved i => k i
  | Rejected e => Rejected (ThrownError e)
  end.

Definition _updateMovieInDb (movie : Movie) : M (gmap string Movie) (option Movie) :=
  let m := movie in
  found ← findOne (_id m);
  match found with
  | Some found =>
      let m := if truthy_array (torrents found)
               then set_torrents m (_formatTorrents (torrents m) (torrents found))
               else m in
      let m := keep_old_attributes m found in
      r ← findOneAndUpdate (_id m) m;
      mret (Some r)
  | None =>
      r ← save _id m;
      mret (Some r)
  end.

Definition _addTmdbImages (movie : Movie) : promise Movie Movie :=
  catch
    (then_ (tmdb_movie_images (tmdbId movie)) (fun i =>
       let tmdbPoster := head (List.filter lang_cb (posters i)) in
       let tmdbBackdrop := head (List.filter lang_cb (backdrops i)) in
       checkImages (with_images movie {|
         banner := DefaultImageSizes;
         backdrop := match tmdbBackdrop with
                     | Some b => Sizes (_formatImdbImage (file_path b))
                     | None => DefaultImageSizes
                     end;
         poster := match tmdbPoster with
                   | Some p => Sizes (_formatImdbImage (file_path p))
                   | None => DefaultImageSizes
                   end;
         logo := DefaultImageSizes |})))
    (fun err =>
       match err with
       | ThrownItem item =>
           if truthy_number (Some (tmdbId item)) then Rejected item
           else Rejected movie
       | ThrownError _ => Rejected movie
       end).

Definition _addOmdbImages (movie : Movie) : promise Movie Movie :=
  if truthy (poster (images movie)) then Rejected movie
  else
    catch
      (then_ (omdb_byId (imdbId movie)) (fun i =>
         checkImages (with_images movie {|
           banner := banner (images movie);
           backdrop := backdrop (images movie);
           poster := match Poster i with
                     | Some p =>
                         if negb (truthy (poster (images movie)))
                            && truthy_string (Some p)
                         then Sizes (sizes_of_url p)
                         else poster (images movie)
                     | None => poster (images movie)
                     end;
           logo := logo (images movie) |})))
      (fun err =>
         match err with
         | ThrownItem item =>
             if truthy_string (Some (imdbId item)) then Rejected item
             else Rejected movie
         | ThrownError _ => Rejected movie
         end).

(** [img ? {full: img.url, ...} : old]. *)
Definition sizes_or (img : option FanartImage) (old : image) : image :=
  match img with
  | Some x => Sizes (sizes_of_url (fanart_url x))
  | None => old
  end.

Definition _addFanartImages (movie : Movie) : promise Movie Movie :=
  catch
    (then_ (fanart_getMovieImages (tmdbId movie)) (fun i =>
       let banner' :=
         if negb (truthy (banner (images movie))) && truthy_array (moviebanner i)
         then shift (moviebanner i) else None in
       let backdrop' :=
         if negb (truthy (backdrop (images movie))) && truthy_array (moviebackground i)
         then shift (moviebackground i)
         else if negb (truthy (backdrop (images movie))) && truthy_array (hdmovieclearart i)
         then shift (hdmovieclearart i) else None in
       let poster' :=
         if negb (truthy (poster (images movie))) && truthy_array (movieposter i)
         then shift (movieposter i) else None in
       let logo' :=
         if negb (truthy (logo (images movie))) && truthy_array (movielogo i)
         then shift (movielogo i)
         else if negb (truthy (logo (images movie))) && truthy_array (hdmovielogo i)
         then shift (hdmovielogo i) else None in
       checkImages (with_images movie {|
         banner := sizes_or banner' (banner (images movie));
         backdrop := sizes_or backdrop' (backdrop (images movie));
         poster := sizes_or poster' (poster (images movie));
         logo := sizes_or logo' (logo (images movie)) |})))
    (fun err =>
       match err with
       | ThrownItem item =>
           if truthy_number (Some (tmdbId item)) then Rejected item
           else Rejected movie
       | ThrownError _ => Rejected movie
       end).

Definition addImages (movie : Movie) : promise Movie error :=
  catch
    (catch
       (catch (_addTmdbImages movie)
              (fun movie => _addOmdbImages movie))
       (fun movie => _addFanartImages movie))
    (fun movie => Resolved movie).

(** [addImages] never rejects (lemma [addImages_resolves] below), so
    returning its promise from inside [try] cannot bypass the [catch]. *)
Definition getTraktInfo (traktSlug : string) : promise (option Movie) error :=
  catch
    (traktMovie ← trakt_movies_summary traktSlug;
     traktWatchers ← trakt_movies_watching traktSlug;
     match traktMovie with
     | Some t =>
         match ids_imdb (ids t), ids_tmdb (ids t) with
         | Some imdb, Some tmdb =>
             if truthy_string (Some imdb) && truthy_number (Some tmdb)
             then
               let ratingPercentage := Math_round (trakt_rating t * 10) in
               m ← addImages {|
                 _id := imdb;
                 imdbId := imdb;
                 tmdbId := tmdb;
                 slug := ids_slug (ids t);
                 title := trakt_title t;
                 rating := {|
                   stars := (inject_Z ratingPercentage / 100 * 5)%Q;
                   votes := trakt_votes t;
                   watching := match traktWatchers with
                               | Some w => Z.of_nat (length w)
                               | None => 0
                               end;
                   percentage := ratingPercentage
                 |};
                 images := {| banner := DefaultImageSizes;
                              backdrop := DefaultImageSizes;
                              poster := DefaultImageSizes;
                              logo := Undefined |};
                 genres := match trakt_genres t with
                           | Some g => g
                           | None => ["unknown"]
                           end;
                 createdAt := now_createdAt;
                 updatedAt := now_updatedAt;
                 torrents := Some [];
                 watched := {| complete := false; progress := 0 |};
                 bookmarked := false;
                 bookmarkedOn := None;
                 downloaded := None;
                 downloading := None;
                 downloadedOn := None
               |};
               mret (Some m)
             else mret None
         | _, _ => mret None
         end
     | None => mret None
     end)
    (fun err =>
       let message :=
         "getTraktInfo: " +:+
         (if truthy_string (error_path err)
          then default "" (error_path err) else error_to_string err) in
       let message :=
         if bool_decide (error_statusCode err = Some 404)
         then "getTraktInfo: Could not find any data with slug: '" +:+ traktSlug +:+ "'"
         else message in
       Rejected (PlainError message)).

End Helper.

(** *** Vocabulary for the image cascade *)

Inductive field : Type := Banner | Backdrop | Poster_ | Logo.


(** A field is resolved when it holds an image set of a provider. *)
Definition resolved (v : image) : bool :=
  match v with Sizes _ => true | _ => false end.



(** Modelled from the spec: [AbstractHelper.checkImages], which is not among
    the sources.  By the spec a step ends the cascade only when no image
    field is left at the placeholder ("each step runs only if any image
    field is still placeholder"), so the check passes exactly when all of
    banner, backdrop, poster and logo are resolved. *)
Definition checkImages_spec (item : Movie) : bool :=
  resolved (banner (images item)) && resolved (backdrop (images item))
  && resolved (poster (images item)) && resolved (logo (images item)).

Section HelperFacts.

Variable placeholder_truthy : bool.
Variable checkImages_passes : Movie -> bool.
Variable _formatImdbImage : string -> ImageSizes.
Variable _formatTorrents :
  option (list Torrent) -> option (list Torrent) -> option (list Torrent).
Variable tmdb_movie_images : Z -> promise TmdbImages error.
Variable omdb_byId : string -> promise OmdbMovie error.
Variable fanart_getMovieImages : Z -> promise FanartMovieImages error.
Variable trakt_movies_summary : string -> promise (option TraktMovie) error.
Variable trakt_movies_watching : string -> promise (option (list Watcher)) error.
Variable now_createdAt : Z.
Variable now_updatedAt : Z.

#[local] Abbreviation truthy' := (truthy placeholder_truthy).
#[local] Abbreviation addTmdb :=
  (_addTmdbImages checkImages_passes _formatImdbImage tmdb_movie_images).
#[local] Abbreviation addOmdb :=
  (_addOmdbImages placeholder_truthy checkImages_passes omdb_byId).
#[local] Abbreviation addFanart :=
  (_addFanartImages placeholder_truthy checkImages_passes fanart_getMovieImages).
#[local] Abbreviation addImages' :=
  (addImages placeholder_truthy checkImages_passes _formatImdbImage
     tmdb_movie_images omdb_byId fanart_getMovieImages).
#[local] Abbreviation getTraktInfo' :=
  (getTraktInfo placeholder_truthy checkImages_passes _formatImdbImage
     tmdb_movie_images omdb_byId fanart_getMovieImages
     trakt_movies_summary trakt_movies_watching
     now_createdAt now_updatedAt).


Lemma with_images_id (m : Movie) : with_images m (images m) = m.
Proof. by destruct m. Qed.

Lemma with_images_twice (m : Movie) (i j : Images) :
  with_images (with_images m i) j = with_images m j.
Proof. reflexivity. Qed.









(** The chain of [addImages] always resolves, with what the last step that
    ran carries. *)
Lemma addImages_run (movie : Movie) :
  let m1 := carried (addTmdb movie) in
  let m2 := carried (addOmdb m1) in
  let m3 := carried (addFanart m2) in
  exists r, addImages' movie = Resolved r /\ (r = m1 \/ r = m2 \/ r = m3).
Proof.
  intros m1 m2 m3. subst m1 m2 m3. unfold addImages.
  destruct (addTmdb movie) as [x|m1]; simpl; [by eauto|].
  destruct (addOmdb m1) as [x|m2]; simpl; [by eauto|].
  destruct (addFanart m2) as [x|m3]; simpl; by eauto.
Qed.



(** Every step hands on the movie it was given, images apart. *)
Lemma tmdb_shape (movie : Movie) :
  exists i, carried (addTmdb movie) = with_images movie i.
Proof.
  unfold _addTmdbImages.
  destruct (tmdb_movie_images (tmdbId movie)) as [i|e]; cbn [catch then_ carried];
    [|exists (images movie); by rewrite with_images_id].
  unfold checkImages. destruct (checkImages_passes _); cbn [catch carried];
    [by eexists|].
  destruct (truthy_number (Some (tmdbId _))); cbn [carried];
    [by eexists | exists (images movie); by rewrite with_images_id].
Qed.

Lemma omdb_shape (movie : Movie) :
  exists i, carried (addOmdb movie) = with_images movie i.
Proof.
  unfold _addOmdbImages.
  destruct (truthy' (poster (images movie)));
    [exists (images movie); by rewrite with_images_id|].
  destruct (omdb_byId (imdbId movie)) as [i|e]; cbn [catch then_ carried];
    [|exists (images movie); by rewrite with_images_id].
  unfold checkImages. destruct (checkImages_passes _); cbn [catch carried];
    [by eexists|].
  destruct (truthy_string (Some (imdbId _))); cbn [carried];
    [by eexists | exists (images movie); by rewrite with_images_id].
Qed.

Lemma fanart_shape (movie : Movie) :
  exists i, carried (addFanart movie) = with_images movie i.
Proof.
  unfold _addFanartImages.
  destruct (fanart_getMovieImages (tmdbId movie)) as [i|e]; cbn [catch then_ carried];
    [|exists (images movie); by rewrite with_images_id].
  unfold checkImages. destruct (checkImages_passes _); cbn [catch carried];
    [by eexists|].
  destruct (truthy_number (Some (tmdbId _))); cbn [carried];
    [by eexists | exists (images movie); by rewrite with_images_id].
Qed.

(** [addImages] never rejects and touches nothing but the images. *)
Lemma addImages_resolves (movie : Movie) :
  exists i, addImages' movie = Resolved (with_images movie i).
Proof.
  destruct (addImages_run movie) as (r & Hr & Hcases). rewrite Hr.
  destruct (tmdb_shape movie) as (i1 & H1).
  destruct (omdb_shape (carried (addTmdb movie))) as (i2 & H2).
  destruct (fanart_shape (carried (addOmdb (carried (addTmdb movie))))) as (i3 & H3).
  rewrite H1 in H2, H3, Hcases. rewrite H2 in H3, Hcases.
  rewrite H3 in Hcases. rewrite !with_images_twice in Hcases.
  destruct Hcases as [->|[->| ->]]; by eexists.
Qed.

(** *** The metadata fetch of a movie *)


(** The guard passes: the record is the draft with the images of the
    cascade, so its rating is the one computed from the two Trakt calls. *)
Lemma getTraktInfo_record (slug : string) (t : TraktMovie) (imdb : string) (tmdb : Z)
    (w : option (list Watcher)) :
  trakt_movies_summary slug = Resolved (Some t) ->
  ids_imdb (ids t) = Some imdb -> imdb <> "" ->
  ids_tmdb (ids t) = Some tmdb -> tmdb <> 0 ->
  trakt_movies_watching slug = Resolved w ->
  exists m, getTraktInfo' slug = Resolved (Some m)
            /\ _id m = imdb /\ tmdbId m = tmdb
            /\ watching (rating m) =
               match w with Some l => Z.of_nat (length l) | None => 0 end.
Proof.
  intros Hs Himdb Himdb0 Htmdb Htmdb0 Hw. unfold getTraktInfo. rewrite Hs, Hw.
  cbn [mbind promise_bind]. rewrite Himdb, Htmdb.
  unfold truthy_string at 1, truthy_number at 1.
  rewrite !bool_decide_eq_false_2 by assumption. cbn [negb andb].
  match goal with
  | |- context [addImages' ?draft] =>
      destruct (addImages_resolves draft) as (i & ->)
  end.
  eexists. split; [reflexivity|]. by repeat split.
Qed.


(** The message of the [Error] that the [catch] of [getTraktInfo] builds
    from what was thrown. *)
Definition catch_message (traktSlug : string) (err : error) : string :=
  if bool_decide (error_statusCode err = Some 404)
  then "getTraktInfo: Could not find any data with slug: '" +:+ traktSlug +:+ "'"
  else "getTraktInfo: " +:+
       (if truthy_string (error_path err)
        then default "" (error_path err) else error_to_string err).

Lemma catch_message_prefix (traktSlug : string) (err : error) :
  exists rest, catch_message traktSlug err = "getTraktInfo: " +:+ rest.
Proof. unfold catch_message. case_bool_decide; by eexists. Qed.

(** The watching call rejects: the rejection reaches [catch]. *)
Lemma getTraktInfo_watching_rejected (slug : string) (o : option TraktMovie) (e : error) :
  trakt_movies_summary slug = Resolved o ->
  trakt_movies_watching slug = Rejected e ->
  getTraktInfo' slug = Rejected (PlainError (catch_message slug e)).
Proof.
  intros Hs Hw. unfold getTraktInfo. rewrite Hs, Hw.
  cbn [mbind promise_bind catch]. reflexivity.
Qed.

(** C8, amended: with a summary that passes the id guard, the watching count
    degrades to 0 only when the watching call resolves without a list; it
    is the length of the list when there is one; and when the watching call
    rejects with [e], [getTraktInfo] rejects as well, with the [Error] its
    [catch] builds from [e]: the message is "getTraktInfo: " followed by
    the path of [e] or else [e] as a string, or, on status 404, the
    sentence naming the slug; in each case it starts with
    "getTraktInfo: ". *)
Theorem getTraktInfo_watching_count (slug : string) (t : TraktMovie)
    (imdb : string) (tmdb : Z) :
  trakt_movies_summary slug = Resolved (Some t) ->
  ids_imdb (ids t) = Some imdb -> imdb <> "" ->
  ids_tmdb (ids t) = Some tmdb -> tmdb <> 0 ->
  (trakt_movies_watching slug = Resolved None ->
     exists m, getTraktInfo' slug = Resolved (Some m) /\ watching (rating m) = 0)
  /\ (forall l, trakt_movies_watching slug = Resolved (Some l) ->
        exists m, getTraktInfo' slug = Resolved (Some m)
                  /\ watching (rating m) = Z.of_nat (length l))
  /\ (forall e, trakt_movies_watching slug = Rejected e ->
        getTraktInfo' slug
        = Rejected (PlainError
            (if bool_decide (error_statusCode e = Some 404)
             then "getTraktInfo: Could not find any data with slug: '" +:+ slug +:+ "'"
             else "getTraktInfo: " +:+
                  (if truthy_string (error_path e)
                   then default "" (error_path e) else error_to_string e)))
        /\ exists rest, getTraktInfo' slug
                        = Rejected (PlainError ("getTraktInfo: " +:+ rest))).
Proof.
  intros Hs Himdb Himdb0 Htmdb Htmdb0. split; [|split].
  - intros Hw.
    destruct (getTraktInfo_record slug t imdb tmdb None) as (m & Hm & _ & _ & Hwatch);
      try assumption.
    by exists m.
  - intros l Hw.
    destruct (getTraktInfo_record slug t imdb tmdb (Some l)) as (m & Hm & _ & _ & Hwatch);
      try assumption.
    by exists m.
  - intros e Hw.
    pose proof (getTraktInfo_watching_rejected slug (Some t) e Hs Hw) as Hrej.
    split; [exact Hrej|]. rewrite Hrej.
    destruct (catch_message_prefix slug e) as (rest & ->). by exists rest.
Qed.

(** *** The upsert of a movie *)

(** C9 (user-state frame condition): when the store holds a record [found]
    under the incoming record's id, the document written under that id, and
    returned, has [createdAt], [bookmarked], [bookmarkedOn], [watched],
    [downloaded], [downloading] and [downloadedOn] of [found]; every other
    field is the incoming record's, [torrents] being the incoming record's
    after [_formatTorrents] merged the stored torrents into it (when the
    stored record has any).  No other document changes. *)
Theorem updateMovieInDb_preserves_user_state (d : gmap string Movie) (m found : Movie) :
  d !! _id m = Some found ->
  let written :=
    {| _id := _id m; imdbId := imdbId m; tmdbId := tmdbId m;
       slug := slug m; title := title m; rating := rating m;
       images := images m; genres := genres m;
       createdAt := createdAt found;
       updatedAt := updatedAt m;
       torrents := if truthy_array (torrents found)
                   then _formatTorrents (torrents m) (torrents found)
                   else torrents m;
       watched := watched found;
       bookmarked := bookmarked found;
       bookmarkedOn := bookmarkedOn found;
       downloaded := downloaded found;
       downloading := downloading found;
       downloadedOn := downloadedOn found |} in
  _updateMovieInDb _formatTorrents m d = (Some written, <[_id m := written]> d).
Proof.
  intros Hfound written. subst written.
  unfold _updateMovieInDb, mbind, M_bind, findOne. rewrite Hfound.
  unfold findOneAndUpdate, mret, M_ret, keep_old_attributes, set_torrents.
  destruct (truthy_array (torrents found)); reflexivity.
Qed.

(** Without a stored record the incoming one is inserted as it is. *)
Lemma updateMovieInDb_new (d : gmap string Movie) (m : Movie) :
  d !! _id m = None ->
  _updateMovieInDb _formatTorrents m d = (Some m, <[_id m := m]> d).
Proof.
  intros Hnone. unfold _updateMovieInDb, mbind, M_bind, findOne. by rewrite Hnone.
Qed.

End HelperFacts.

(** *** Scenarios *)

Definition draft_images : Images :=
  {| banner := DefaultImageSizes; backdrop := DefaultImageSizes;
     poster := DefaultImageSizes; logo := Undefined |}.

(** A draft as [getTraktInfo] builds it. *)
Definition draft : Movie :=
  {| _id := "tt0133093"; imdbId := "tt0133093"; tmdbId := 603;
     slug := "the-matrix-1999"; title := "The Matrix";
     rating := {| stars := 87 # 20; votes := 1200; watching := 3; percentage := 87 |};
     images := draft_images; genres := ["action"];
     createdAt := 1600000000000; updatedAt := 1600000000000;
     torrents := Some [];
     watched := {| complete := false; progress := 0 |};
     bookmarked := false; bookmarkedOn := None;
     downloaded := None; downloading := None; downloadedOn := None |}.

(** TMDB returns one English poster and no backdrop. *)
Definition tmdb_only_poster (_ : Z) : promise TmdbImages error :=
  Resolved {| posters := [ {| iso_639_1 := Some "en"; file_path := "/poster.jpg" |} ];
              backdrops := [] |}.

Definition omdb_poster (_ : string) : promise OmdbMovie error :=
  Resolved {| Poster := Some "http://omdb/poster.jpg" |}.

(** Fanart returns a poster and a background. *)
Definition fanart_poster_backdrop (_ : Z) : promise FanartMovieImages error :=
  Resolved {| moviebanner := None;
              moviebackground := Some [ {| fanart_url := "http://fanart/bg.jpg" |} ];
              hdmovieclearart := None;
              movieposter := Some [ {| fanart_url := "http://fanart/poster.jpg" |} ];
              movielogo := None;
              hdmovielogo := None |}.

Definition trakt_movie_ok : TraktMovie :=
  {| ids := {| ids_imdb := Some "tt0133093"; ids_tmdb := Some 603;
               ids_slug := "the-matrix-1999" |};
     trakt_title := "The Matrix"; trakt_rating := 87 # 10; trakt_votes := 1200;
     trakt_genres := Some ["action"] |}.


(** A stand-in for [AbstractHelper._formatImdbImage]: one URL per size. *)
Definition format_tmdb (file_path : string) : ImageSizes :=
  {| full := "https://image.tmdb.org/t/p/original" +:+ file_path;
     high := "https://image.tmdb.org/t/p/w1280" +:+ file_path;
     medium := "https://image.tmdb.org/t/p/w780" +:+ file_path;
     thumb := "https://image.tmdb.org/t/p/w342" +:+ file_path |}.

(** The record the store holds for the draft's id: bookmarked, watched,
    downloaded, with one torrent. *)
Definition stored_movie : Movie :=
  {| _id := "tt0133093"; imdbId := "tt0133093"; tmdbId := 603;
     slug := "the-matrix-1999"; title := "The Matrix (old title)";
     rating := {| stars := 4; votes := 900; watching := 0; percentage := 80 |};
     images := draft_images; genres := ["unknown"];
     createdAt := 1500000000000; updatedAt := 1500000000000;
     torrents := Some [ {| quality := "1080p"; language := "en"; url := "magnet:old";
                           seeds := 5; peers := 1 |} ];
     watched := {| complete := true; progress := 100 |};
     bookmarked := true; bookmarkedOn := Some 1550000000000;
     downloaded := Some true; downloading := Some false;
     downloadedOn := Some 1560000000000 |}.

(** A stand-in for [_formatTorrents]: the incoming torrents followed by the
    stored ones. *)
Definition append_torrents (new old : option (list Torrent)) : option (list Torrent) :=
  Some (default [] new ++ default [] old).








(** Were the placeholder a truthy value (an object), the same scenario would
    end with the background still at the placeholder: the tests
    [!movie.images.x] of the OMDB and Fanart steps never hold for it. *)
Lemma cascade_with_truthy_placeholder (_formatImdbImage : string -> ImageSizes) :
  addImages true checkImages_spec _formatImdbImage
    tmdb_only_poster omdb_poster fanart_poster_backdrop draft
  = Resolved (with_images draft
      {| banner := DefaultImageSizes;
         backdrop := DefaultImageSizes;
         poster := Sizes (_formatImdbImage "/poster.jpg");
         logo := DefaultImageSizes |}).
Proof. reflexivity. Qed.

Definition trakt_summary_ok (_ : string) : promise (option TraktMovie) error :=
  Resolved (Some trakt_movie_ok).

Definition trakt_watching_unavailable (_ : string) :
    promise (option (list Watcher)) error :=
  Rejected (ProviderError (Some 503) None "Service Unavailable").

Definition trakt_watching_null (_ : string) : promise (option (list Watcher)) error :=
  Resolved None.

(** C8 as stated fails: the summary call succeeds with all ids, the watching
    call rejects, and [getTraktInfo] rejects instead of resolving with a
    watching count of 0. *)
Lemma getTraktInfo_watching_failure_rejects :
  trakt_summary_ok "the-matrix-1999" = Resolved (Some trakt_movie_ok)
  /\ getTraktInfo false checkImages_spec format_tmdb
       tmdb_only_poster omdb_poster fanart_poster_backdrop
       trakt_summary_ok trakt_watching_unavailable 1600000000000 1600000000007 "the-matrix-1999"
     = Rejected (PlainError "getTraktInfo: Error: Service Unavailable")
  /\ ~ (exists m, getTraktInfo false checkImages_spec format_tmdb
                    tmdb_only_poster omdb_poster fanart_poster_backdrop
                    trakt_summary_ok trakt_watching_unavailable 1600000000000 1600000000007
                    "the-matrix-1999"
                  = Resolved (Some m) /\ watching (rating m) = 0).
Proof.
  split; [reflexivity|]. split; [reflexivity|].
  intros (m & Hm & _). discriminate Hm.
Qed.

Lemma getTraktInfo_watching_count_witness :
  exists m, getTraktInfo false checkImages_spec format_tmdb
              tmdb_only_poster omdb_poster fanart_poster_backdrop
              trakt_summary_ok trakt_watching_null 1600000000000 1600000000007 "the-matrix-1999"
            = Resolved (Some m)
            /\ watching (rating m) = 0.
Proof.
  refine (proj1 (getTraktInfo_watching_count false checkImages_spec format_tmdb
                   tmdb_only_poster omdb_poster fanart_poster_backdrop
                   trakt_summary_ok trakt_watching_null 1600000000000 1600000000007
                   "the-matrix-1999" trakt_movie_ok "tt0133093" 603
                   eq_refl eq_refl _ eq_refl _) eq_refl); discriminate.
Defined.

Lemma updateMovieInDb_preserves_user_state_witness :
  let d : gmap string Movie := {[ "tt0133093" := stored_movie ]} in
  d !! _id draft = Some stored_movie
  /\ exists written,
       _updateMovieInDb append_torrents draft d = (Some written, <[_id draft := written]> d)
       /\ bookmarked written = true
       /\ bookmarkedOn written = Some 1550000000000
       /\ watched written = {| complete := true; progress := 100 |}
       /\ downloaded written = Some true
       /\ downloading written = Some false
       /\ downloadedOn written = Some 1560000000000
       /\ createdAt written = 1500000000000
       /\ title written = "The Matrix"
       /\ updatedAt written = 1600000000000
       /\ torrents written = torrents stored_movie.
Proof.
  intros d. split; [reflexivity|].
  eexists. split.
  - exact (updateMovieInDb_preserves_user_state append_torrents d draft stored_movie eq_refl).
  - repeat split; reflexivity.
Defined.

End MovieHelper.

(** ** The metadata fetch and the required cross-reference ids *)




(** * Further properties of the helpers *)

(** ** The torrent merge of the earlier movie helper *)

Module LegacyMovieFacts.

Import LegacyMovieHelper.

(** A property of entries that holds of everything in the two arrays and of
    the stored entry at hand still holds after one iteration. *)
Lemma forEach_body_closed (P : Torrent -> Prop) (st : arrays) (torrent : Torrent) :
  (forall x, x ∈ torrents_of st -> P x) ->
  (forall x, x ∈ newTorrents_of st -> P x) ->
  P torrent ->
  (forall x, x ∈ torrents_of (forEach_body st torrent) -> P x)
  /\ (forall x, x ∈ newTorrents_of (forEach_body st torrent) -> P x).
Proof.
  intros Hts Hns Ht. unfold forEach_body.
  destruct (List.find (find_cb torrent) (torrents_of st)) as [m|] eqn:Hfind.
  - apply find_some in Hfind as [Hm _]. apply list_elem_of_In in Hm.
    destruct (seeds torrent <? seeds m); [|by split].
    split; simpl; [exact Hts|].
    intros x Hx. apply elem_of_app in Hx as [Hx|Hx].
    + apply list_elem_of_In, filter_In in Hx as [Hx _].
      apply Hns. by apply list_elem_of_In.
    + apply list_elem_of_singleton in Hx as ->. by apply Hts.
  - destruct st as [a|ts ns]; simpl in *.
    + split; intros x Hx; apply elem_of_app in Hx as [Hx|Hx]; auto;
        apply list_elem_of_singleton in Hx as ->; exact Ht.
    + split; [exact Hts|].
      intros x Hx; apply elem_of_app in Hx as [Hx|Hx]; auto.
      apply list_elem_of_singleton in Hx as ->; exact Ht.
Qed.

Lemma forEach_closed (P : Torrent -> Prop) (found : list Torrent) (st : arrays) :
  (forall x, x ∈ torrents_of st -> P x) ->
  (forall x, x ∈ newTorrents_of st -> P x) ->
  (forall x, x ∈ found -> P x) ->
  forall x, x ∈ newTorrents_of (fold_left forEach_body found st) -> P x.
Proof.
  revert st. induction found as [|s found IH]; intros st Hts Hns Hfound; simpl.
  - exact Hns.
  - destruct (forEach_body_closed P st s Hts Hns) as [Hts' Hns'].
    { apply Hfound. by left. }
    apply IH; auto. intros x Hx. apply Hfound. by right.
Qed.

(** The merge invents nothing: every entry of the merged set is an entry of
    the incoming set or of the stored set. *)
Theorem updateTorrents_entries_from_inputs (torrents foundTorrents : list Torrent)
    (t : Torrent) :
  t ∈ _updateTorrents torrents foundTorrents ->
  t ∈ torrents \/ t ∈ foundTorrents.
Proof.
  unfold _updateTorrents.
  apply (forEach_closed (fun x => x ∈ torrents \/ x ∈ foundTorrents));
    simpl; auto.
Qed.

Lemma updateTorrents_entries_from_inputs_witness :
  en_720p_100 ∈ _updateTorrents [en_720p_100; en_1080p_20] [en_720p_50]
  /\ (en_720p_100 ∈ [en_720p_100; en_1080p_20] \/ en_720p_100 ∈ [en_720p_50]).
Proof.
  assert (en_720p_100 ∈ _updateTorrents [en_720p_100; en_1080p_20] [en_720p_50]) as Hin.
  { apply list_elem_of_singleton. reflexivity. }
  split; [exact Hin|].
  exact (updateTorrents_entries_from_inputs _ _ _ Hin).
Defined.

(** While the iteration runs, [torrents] only grows at its end, and a
    stored entry [s] whose key the incoming set has is in neither array. *)
Definition never_has (torrents : list Torrent) (s : Torrent) (st : arrays) : Prop :=
  (exists ext, torrents_of st = torrents ++ ext)
  /\ (s ∉ torrents_of st) /\ (s ∉ newTorrents_of st).

Lemma forEach_body_never_has (torrents : list Torrent) (s m : Torrent)
    (st : arrays) (torrent : Torrent) :
  List.find (find_cb s) torrents = Some m ->
  never_has torrents s st -> never_has torrents s (forEach_body st torrent).
Proof.
  intros Hs ((ext & Hext) & Hts & Hns). unfold forEach_body.
  destruct (List.find (find_cb torrent) (torrents_of st)) as [m'|] eqn:Hfind.
  - apply find_some in Hfind as [Hm' _]. apply list_elem_of_In in Hm'.
    destruct (seeds torrent <? seeds m'); [|by repeat split; eauto].
    repeat split; simpl; eauto.
    intros Hx. apply elem_of_app in Hx as [Hx|Hx].
    + apply list_elem_of_In, filter_In in Hx as [Hx _].
      apply Hns. by apply list_elem_of_In.
    + apply list_elem_of_singleton in Hx as ->. contradiction.
  - assert (torrent <> s) as Hne.
    { intros ->. rewrite Hext in Hfind.
      by rewrite (find_app_Some _ _ ext _ Hs) in Hfind. }
    destruct st as [a|ts ns]; simpl in *.
    + repeat split.
      * exists (ext ++ [torrent]). by rewrite Hext, app_assoc.
      * intros Hx. apply elem_of_app in Hx as [Hx|Hx]; [done|].
        apply list_elem_of_singleton in Hx. congruence.
      * intros Hx. apply elem_of_app in Hx as [Hx|Hx]; [done|].
        apply list_elem_of_singleton in Hx. congruence.
    + repeat split; eauto.
      intros Hx. apply elem_of_app in Hx as [Hx|Hx]; [done|].
      apply list_elem_of_singleton in Hx. congruence.
Qed.

(** A stored entry whose key the incoming set has never enters the merged
    set, whatever its seeds and whatever else is merged with it: on a key
    both sides have, the merged set can only hold incoming entries. *)
Theorem updateTorrents_matched_stored_never_added
    (torrents foundTorrents : list Torrent) (s m : Torrent) :
  List.find (find_cb s) torrents = Some m ->
  s ∉ torrents ->
  s ∉ _updateTorrents torrents foundTorrents.
Proof.
  intros Hs Hnot. unfold _updateTorrents.
  assert (never_has torrents s (Shared torrents)) as Hinit.
  { repeat split; simpl; auto. exists []. by rewrite app_nil_r. }
  revert Hinit. generalize (Shared torrents) as st.
  induction foundTorrents as [|x found IH]; intros st Hst; simpl.
  - by destruct Hst as (_ & _ & Hns).
  - apply IH. by apply (forEach_body_never_has torrents s m).
Qed.

Lemma updateTorrents_matched_stored_never_added_witness :
  en_720p_50 ∉ _updateTorrents [en_720p_10; en_1080p_20] [en_1080p_5; en_720p_50].
Proof.
  apply (updateTorrents_matched_stored_never_added _ _ _ en_720p_10).
  - reflexivity.
  - intros Hin. apply elem_of_cons in Hin as [Hin|Hin]; [discriminate|].
    apply list_elem_of_singleton in Hin. discriminate.
Defined.

(** When no entry anywhere has more seeds than a stored entry of its key,
    nothing is replaced: the arrays stay shared and only grow. *)
Lemma forEach_without_replacement (found a : list Torrent) :
  (forall s m, s ∈ found -> m ∈ a ++ found -> find_cb s m = true ->
               seeds m <= seeds s) ->
  exists ext,
    fold_left forEach_body found (Shared a) = Shared (a ++ ext)
    /\ (forall x, x ∈ ext -> x ∈ found)
    /\ (forall s, s ∈ found -> exists x, x ∈ a ++ ext /\ find_cb s x = true).
Proof.
  revert a. induction found as [|s found IH]; intros a Hle; simpl.
  - exists []. rewrite app_nil_r. split; [done|]. split; intros x Hx; by apply elem_of_nil in Hx.
  - unfold forEach_body at 2. simpl.
    destruct (List.find (find_cb s) a) as [m|] eqn:Hfind.
    + apply find_some in Hfind as [Hm Hkey]. apply list_elem_of_In in Hm.
      assert (seeds m <= seeds s) as Hms.
      { apply Hle; [by left | apply elem_of_app; by left | exact Hkey]. }
      destruct (Z.ltb_spec (seeds s) (seeds m)); [lia|].
      destruct (IH a) as (ext & Hrun & Hsub & Hkeys).
      { intros s' m' Hs' Hm'. apply Hle; [by right|].
        apply elem_of_app in Hm' as [?|?]; apply elem_of_app; [by left | right; by right]. }
      exists ext. split; [exact Hrun|]. split.
      * intros x Hx. right. by apply Hsub.
      * intros s' Hs'. apply elem_of_cons in Hs' as [->|Hs']; [|by apply Hkeys].
        exists m. split; [apply elem_of_app; by left | exact Hkey].
    + destruct (IH (a ++ [s])) as (ext & Hrun & Hsub & Hkeys).
      { intros s' m' Hs' Hm'. apply Hle; [by right|].
        rewrite <- app_assoc in Hm'. exact Hm'. }
      exists (s :: ext). rewrite <- app_assoc in Hrun, Hkeys. simpl in Hrun, Hkeys.
      split; [exact Hrun|]. split.
      * intros x Hx. apply elem_of_cons in Hx as [->|Hx]; [by left | right; by apply Hsub].
      * intros s' Hs'. apply elem_of_cons in Hs' as [->|Hs']; [|by apply Hkeys].
        exists s. split.
        -- apply elem_of_app. right. by left.
        -- unfold find_cb. by rewrite !bool_decide_eq_true_2.
Qed.

(** No-loss without replacement: when no incoming or stored entry has more
    seeds than a stored entry of the same key, the merged set is the
    incoming set followed by stored entries, and it holds an entry for the
    key of every stored entry. *)
Theorem updateTorrents_without_replacement_keeps_keys
    (torrents foundTorrents : list Torrent) :
  (forall s m, s ∈ foundTorrents -> m ∈ torrents ++ foundTorrents ->
               find_cb s m = true -> seeds m <= seeds s) ->
  exists ext,
    _updateTorrents torrents foundTorrents = torrents ++ ext
    /\ (forall x, x ∈ ext -> x ∈ foundTorrents)
    /\ (forall s, s ∈ foundTorrents ->
          exists x, x ∈ _updateTorrents torrents foundTorrents /\ find_cb s x = true).
Proof.
  intros Hle. unfold _updateTorrents.
  destruct (forEach_without_replacement foundTorrents torrents Hle)
    as (ext & -> & Hsub & Hkeys).
  exists ext. by repeat split.
Qed.

Lemma updateTorrents_without_replacement_keeps_keys_witness :
  exists ext,
    _updateTorrents [en_720p_10] [en_1080p_5; en_720p_50] = [en_720p_10] ++ ext
    /\ (forall x, x ∈ ext -> x ∈ [en_1080p_5; en_720p_50])
    /\ (forall s, s ∈ [en_1080p_5; en_720p_50] ->
          exists x, x ∈ _updateTorrents [en_720p_10] [en_1080p_5; en_720p_50]
                    /\ find_cb s x = true).
Proof.
  apply updateTorrents_without_replacement_keeps_keys.
  intros s m Hs Hm Hkey.
  repeat (apply elem_of_cons in Hs as [->|Hs]);
    [| |by apply elem_of_nil in Hs];
    simpl in Hm;
    repeat (apply elem_of_cons in Hm as [->|Hm]);
    try (by apply elem_of_nil in Hm); try discriminate Hkey; simpl; lia.
Defined.

End LegacyMovieFacts.

(** ** The episode merge and the season count *)

Module ShowFacts.

Import ShowHelper.

Lemma same_number_refl (e : Episode) : same_number e e = true.
Proof. unfold same_number. by rewrite !bool_decide_eq_true_2. Qed.

(** The record after one stored episode: its [latest_episode] is raised to
    the episode's air date, matched or not. *)
Lemma merge_cb_latest (s : Show) (e : Episode) :
  latest_episode (merge_cb s e) = Z.max (latest_episode s) (first_aired e).
Proof.
  unfold merge_cb. cbv zeta.
  set (s1 := if latest_episode s <? first_aired e then _ else s).
  assert (episodes s1 = episodes s) as Hs1 by (subst s1; by case_match).
  assert (latest_episode s1 = Z.max (latest_episode s) (first_aired e)) as Hl.
  { subst s1. destruct (Z.ltb_spec (latest_episode s) (first_aired e)); simpl; lia. }
  destruct (List.find (same_number e) (episodes s)) as [m|] eqn:Hfind.
  - apply find_some in Hfind as [Hin _]. apply list_elem_of_In in Hin.
    rewrite <- Hs1 in Hin.
    rewrite (updateEpisode_unchanged m e s1 "480p" Hin).
    rewrite (updateEpisode_unchanged m e s1 "720p" Hin).
    rewrite (updateEpisode_unchanged m e s1 "1080p" Hin).
    exact Hl.
  - exact Hl.
Qed.

Lemma merge_latest (stored : list Episode) (s : Show) :
  latest_episode (fold_left merge_cb stored s)
  = fold_left Z.max (first_aired <$> stored) (latest_episode s).
Proof.
  revert s. induction stored as [|e stored IH]; intros s; simpl; [reflexivity|].
  by rewrite IH, merge_cb_latest.
Qed.

Lemma fold_max_ge (l : list Z) (a : Z) :
  a <= fold_left Z.max l a /\ forall x, x ∈ l -> x <= fold_left Z.max l a.
Proof.
  revert a. induction l as [|y l IH]; intros a; simpl.
  - split; [lia | intros x Hx; by apply elem_of_nil in Hx].
  - destruct (IH (Z.max a y)) as [Ha Hl]. split; [lia|].
    intros x Hx. apply elem_of_cons in Hx as [->|Hx]; [lia | by apply Hl].
Qed.

(** Every stored episode number is in the merged list. *)
Lemma merge_numbers_present (stored : list Episode) (s : Show) (e : Episode) :
  e ∈ stored ->
  exists x, x ∈ episodes (fold_left merge_cb stored s) /\ same_number e x = true.
Proof.
  revert s. induction stored as [|e' stored IH]; intros s He; simpl.
  - by apply elem_of_nil in He.
  - apply elem_of_cons in He as [->|He]; [|by apply IH].
    destruct (merge_keeps_incoming stored (merge_cb s e')) as (extra & -> & _).
    rewrite merge_cb_episodes.
    destruct (List.find (same_number e') (episodes s)) as [m|] eqn:Hfind.
    + apply find_some in Hfind as [Hin Hsame]. apply list_elem_of_In in Hin.
      exists m. split; [apply elem_of_app; by left | exact Hsame].
    + exists e'. split; [|apply same_number_refl].
      apply elem_of_app. left. apply elem_of_app. right. by left.
Qed.

Lemma merge_title (stored : list Episode) (s : Show) :
  title (fold_left merge_cb stored s) = title s.
Proof.
  revert s. induction stored as [|e stored IH]; intros s; simpl; [reflexivity|].
  rewrite IH. unfold merge_cb, _updateEpisode. cbv zeta.
  repeat case_match; reflexivity.
Qed.

(** Merging into a stored show loses no episode: the saved record has every
    incoming episode as it came, an episode with the season and episode
    number of every stored episode, and nothing that is in neither list. *)
Theorem updateEpisodes_no_episode_lost (d : db) (show found : Show) :
  d !! imdb_id show = Some found ->
  exists saved d',
    _updateEpisodes show d = (Some saved, d')
    /\ (forall e, e ∈ episodes show -> e ∈ episodes saved)
    /\ (forall e, e ∈ episodes found ->
          exists x, x ∈ episodes saved /\ same_number e x = true)
    /\ (forall x, x ∈ episodes saved -> x ∈ episodes show \/ x ∈ episodes found).
Proof.
  intros Hfound. unfold _updateEpisodes, mbind, M_bind, findOne. rewrite Hfound.
  rewrite updateNumSeasons_run. cbv zeta.
  eexists _, _. split; [reflexivity|]. simpl.
  destruct (merge_keeps_incoming (episodes found) show) as (extra & Heq & Hsub).
  split; [|split].
  - intros e He. rewrite Heq. apply elem_of_app. by left.
  - intros e He. by apply merge_numbers_present.
  - intros x Hx. rewrite Heq in Hx. apply elem_of_app in Hx as [Hx|Hx]; auto.
Qed.

Lemma updateEpisodes_no_episode_lost_witness :
  exists saved d',
    _updateEpisodes show_incoming db_stored = (Some saved, d')
    /\ (forall e, e ∈ episodes show_incoming -> e ∈ episodes saved)
    /\ (forall e, e ∈ episodes show_stored ->
          exists x, x ∈ episodes saved /\ same_number e x = true)
    /\ (forall x, x ∈ episodes saved ->
          x ∈ episodes show_incoming \/ x ∈ episodes show_stored).
Proof.
  exact (updateEpisodes_no_episode_lost db_stored show_incoming show_stored eq_refl).
Defined.

(** After a merge into a stored show, [latest_episode] is the largest of the
    incoming record's value and the air dates of all stored episodes,
    whether an incoming episode matches them or not. *)
Theorem updateEpisodes_latest_episode (d : db) (show found : Show) :
  d !! imdb_id show = Some found ->
  exists saved d',
    _updateEpisodes show d = (Some saved, d')
    /\ latest_episode saved
       = fold_left Z.max (first_aired <$> episodes found) (latest_episode show)
    /\ latest_episode show <= latest_episode saved
    /\ (forall e, e ∈ episodes found -> first_aired e <= latest_episode saved).
Proof.
  intros Hfound. unfold _updateEpisodes, mbind, M_bind, findOne. rewrite Hfound.
  rewrite updateNumSeasons_run. cbv zeta.
  eexists _, _. split; [reflexivity|]. simpl. rewrite merge_latest.
  destruct (fold_max_ge (first_aired <$> episodes found) (latest_episode show))
    as [Hge Hall].
  split; [reflexivity|]. split; [exact Hge|].
  intros e He. apply Hall. apply list_elem_of_fmap. by exists e.
Qed.

Lemma updateEpisodes_latest_episode_witness :
  exists saved d',
    _updateEpisodes show_incoming db_stored = (Some saved, d')
    /\ latest_episode saved
       = fold_left Z.max (first_aired <$> episodes show_stored)
           (latest_episode show_incoming)
    /\ latest_episode show_incoming <= latest_episode saved
    /\ (forall e, e ∈ episodes show_stored -> first_aired e <= latest_episode saved).
Proof.
  exact (updateEpisodes_latest_episode db_stored show_incoming show_stored eq_refl).
Defined.

(** The first save of a show stores it as it came, with only [num_seasons]
    recomputed. *)
Theorem updateEpisodes_new_show (d : db) (show : Show) :
  d !! imdb_id show = None ->
  exists saved d',
    _updateEpisodes show d = (Some saved, d')
    /\ d' !! imdb_id show = Some saved
    /\ episodes saved = episodes show
    /\ title saved = title show
    /\ latest_episode saved = latest_episode show
    /\ saved = set_num_seasons show (num_seasons saved).
Proof.
  intros Hnone. unfold _updateEpisodes, mbind, M_bind, findOne. rewrite Hnone.
  unfold save, mret, M_ret. rewrite updateNumSeasons_run. cbv zeta.
  eexists _, _. split; [reflexivity|]. simpl.
  rewrite lookup_insert_eq. by repeat split.
Qed.

Lemma updateEpisodes_new_show_witness :
  exists saved d',
    _updateEpisodes show_incoming ∅ = (Some saved, d')
    /\ d' !! imdb_id show_incoming = Some saved
    /\ episodes saved = episodes show_incoming
    /\ title saved = title show_incoming
    /\ latest_episode saved = latest_episode show_incoming
    /\ saved = set_num_seasons show_incoming (num_seasons saved).
Proof.
  exact (updateEpisodes_new_show ∅ show_incoming (lookup_empty _)).
Defined.

(** A merge writes under the show's id only: every other document of the
    store is as before. *)
Theorem updateEpisodes_other_documents (d : db) (show : Show) (k : string) :
  k <> imdb_id show ->
  snd (_updateEpisodes show d) !! k = d !! k.
Proof.
  intros Hk. unfold _updateEpisodes, mbind, M_bind, findOne.
  destruct (d !! imdb_id show) as [found|].
  - rewrite updateNumSeasons_run. cbv zeta. simpl.
    rewrite merge_imdb_id. by rewrite !lookup_insert_ne.
  - unfold save, mret, M_ret. rewrite updateNumSeasons_run. cbv zeta. simpl.
    by rewrite !lookup_insert_ne.
Qed.

Lemma updateEpisodes_other_documents_witness :
  snd (_updateEpisodes show_incoming db_stored) !! "tt0000002"
  = db_stored !! "tt0000002".
Proof.
  apply updateEpisodes_other_documents. discriminate.
Defined.

(** Recomputing the season count of a record that [_updateNumSeasons] just
    saved changes neither the record nor the store. *)
Theorem updateNumSeasons_again (show : Show) (d : db) :
  let '(saved, d') := _updateNumSeasons show d in
  _updateNumSeasons saved d' = (saved, d').
Proof.
  rewrite updateNumSeasons_run. cbv zeta.
  rewrite updateNumSeasons_run. cbv zeta. simpl.
  set (n := length (remove_dups (season <$> episodes show))).
  assert (set_num_seasons (set_num_seasons show n) n = set_num_seasons show n) as ->
    by reflexivity.
  by rewrite !insert_insert_eq.
Qed.

End ShowFacts.

(** ** Images and metadata of a show *)

Module ShowMetadataFacts.

Import ShowHelper.

Section Providers.

Variable tmdb_tv_images : Z -> promise TmdbImages error.
Variable fanart_getShowImages : Z -> promise FanartShowImages error.
Variable trakt_shows_summary : string -> promise (option TraktShow) error.
Variable trakt_shows_watching : string -> promise (option (list Watcher)) error.
Variable now : Z.

(** The URL [_getTmdbImages] makes of an entry. *)
Definition tmdb_url (x : TmdbImage) : string :=
  "http://image.tmdb.org/t/p/w" +:+ pretty (width x) +:+ file_path x.

Lemma first_or_throw_inv {A} (l : list A) (prop : string) (x : A) :
  first_or_throw l prop = Resolved x -> exists rest, l = x :: rest.
Proof. destruct l as [|y l]; simpl; [done|]. intros [= ->]. by eexists. Qed.

Lemma first_url_inv (a : option (list FanartImage)) (u : string) :
  first_url a = Resolved u -> exists x rest, a = Some (x :: rest) /\ u = fanart_url x.
Proof.
  destruct a as [[|x l]|]; simpl; try done. intros [= <-]. by eexists _, _.
Qed.

Lemma getTmdbImages_inv (tmdbId : Z) (r : TmdbShowImages) :
  _getTmdbImages tmdb_tv_images tmdbId = Resolved r ->
  exists i p b,
    tmdb_tv_images tmdbId = Resolved i
    /\ head (List.filter lang_cb (posters i)) = Some p
    /\ head (List.filter lang_cb (backdrops i)) = Some b
    /\ r = {| tmdb_backdrop := Some (tmdb_url b); tmdb_poster := Some (tmdb_url p) |}.
Proof.
  unfold _getTmdbImages.
  destruct (tmdb_tv_images tmdbId) as [i|e]; cbn [mbind promise_bind]; [|done].
  destruct (List.filter lang_cb (posters i)) as [|p ps] eqn:Hp; [done|].
  destruct (List.filter lang_cb (backdrops i)) as [|b bs] eqn:Hb; [done|].
  simpl. intros [= <-]. exists i, p, b. rewrite Hp, Hb. by repeat split.
Qed.

Lemma getFanartImages_inv (tvdbId : Z) (im : Images) :
  _getFanartImages fanart_getShowImages tvdbId = Resolved im ->
  exists f bg po lo th r1 r2 r3 r4,
    fanart_getShowImages tvdbId = Resolved f
    /\ showbackground f = Some (bg :: r1) /\ tvposter f = Some (po :: r2)
    /\ hdtvlogo f = Some (lo :: r3) /\ tvthumb f = Some (th :: r4)
    /\ im = {| backdrop := fanart_url bg; poster := fanart_url po;
               logo := fanart_url lo; thumb := fanart_url th |}.
Proof.
  unfold _getFanartImages.
  destruct (fanart_getShowImages tvdbId) as [f|e]; cbn [mbind promise_bind]; [|done].
  destruct (first_url (showbackground f)) as [u1|] eqn:H1; cbn [mbind promise_bind]; [|done].
  destruct (first_url (tvposter f)) as [u2|] eqn:H2; cbn [mbind promise_bind]; [|done].
  destruct (first_url (hdtvlogo f)) as [u3|] eqn:H3; cbn [mbind promise_bind]; [|done].
  destruct (first_url (tvthumb f)) as [u4|] eqn:H4; cbn [mbind promise_bind]; [|done].
  intros [= <-].
  apply first_url_inv in H1 as (bg & r1 & ? & ->).
  apply first_url_inv in H2 as (po & r2 & ? & ->).
  apply first_url_inv in H3 as (lo & r3 & ? & ->).
  apply first_url_inv in H4 as (th & r4 & ? & ->).
  by exists f, bg, po, lo, th, r1, r2, r3, r4.
Qed.

(** [getImages] resolves only when TMDB has a poster and a backdrop tagged
    'en' or untagged and Fanart has a first element under each of its four
    keys; the images are then TMDB's backdrop and poster and Fanart's logo
    and thumb, Fanart's own backdrop and poster being discarded. *)
Theorem getImages_resolved_inv (tmdbId tvdbId : Z) (im : Images) :
  getImages tmdb_tv_images fanart_getShowImages tmdbId tvdbId = Resolved im ->
  exists i p b f bg po lo th r1 r2 r3 r4,
    tmdb_tv_images tmdbId = Resolved i
    /\ head (List.filter lang_cb (posters i)) = Some p
    /\ head (List.filter lang_cb (backdrops i)) = Some b
    /\ fanart_getShowImages tvdbId = Resolved f
    /\ showbackground f = Some (bg :: r1) /\ tvposter f = Some (po :: r2)
    /\ hdtvlogo f = Some (lo :: r3) /\ tvthumb f = Some (th :: r4)
    /\ im = {| backdrop := tmdb_url b; poster := tmdb_url p;
               logo := fanart_url lo; thumb := fanart_url th |}.
Proof.
  unfold getImages.
  destruct (_getTmdbImages tmdb_tv_images tmdbId) as [t|e] eqn:Ht;
    cbn [mbind promise_bind]; [|done].
  destruct (_getFanartImages fanart_getShowImages tvdbId) as [fi|e] eqn:Hf;
    cbn [mbind promise_bind]; [|done].
  apply getTmdbImages_inv in Ht as (i & p & b & Hi & Hp & Hb & ->).
  apply getFanartImages_inv in Hf as (f & bg & po & lo & th & r1 & r2 & r3 & r4
                                      & Hfa & H1 & H2 & H3 & H4 & ->).
  simpl. intros [= <-].
  by exists i, p, b, f, bg, po, lo, th, r1, r2, r3, r4.
Qed.




(** A record that [getTraktInfo] resolves with has the three ids of the
    summary, none of them falsy; its images are those of [getImages] for
    the tmdb and tvdb ids; its watching count is the number of watchers, 0
    without a list; its genres are the summary's, ["unknown"] without; the
    summary has [airs], whose day and time it carries. *)
Theorem getTraktInfo_record_inv (slug : string) (info : ShowInfo) :
  getTraktInfo tmdb_tv_images fanart_getShowImages trakt_shows_summary
    trakt_shows_watching now slug = Resolved (Some info) ->
  exists t w,
    trakt_shows_summary slug = Resolved (Some t)
    /\ trakt_shows_watching slug = Resolved w
    /\ ids_imdb (ids t) = Some (info_imdb_id info) /\ info_imdb_id info <> ""
    /\ ids_tmdb (ids t) = Some (info_tmdb_id info) /\ info_tmdb_id info <> 0
    /\ ids_tvdb (ids t) = Some (info_tvdb_id info) /\ info_tvdb_id info <> 0
    /\ getImages tmdb_tv_images fanart_getShowImages
         (info_tmdb_id info) (info_tvdb_id info) = Resolved (info_images info)
    /\ watching (info_rating info) = Z.of_nat (length (default [] w))
    /\ info_genres info = default ["unknown"] (genres t)
    /\ info_last_updated info = now
    /\ airs t = Some {| airs_day := info_air_day info; airs_time := info_air_time info |}.
Proof.
  unfold getTraktInfo.
  destruct (trakt_shows_summary slug) as [o|e]; cbn [mbind promise_bind]; [|done].
  destruct (trakt_shows_watching slug) as [w|e]; cbn [mbind promise_bind]; [|done].
  destruct o as [t|]; cbn [read_ids mbind promise_bind]; [|done].
  destruct (ids_imdb (ids t)) as [imdb|] eqn:Hi1; [|done].
  destruct (ids_tmdb (ids t)) as [tmdb|] eqn:Hi2; [|done].
  destruct (ids_tvdb (ids t)) as [tvdb|] eqn:Hi3; [|done].
  unfold truthy_string, truthy_number.
  destruct (decide (imdb = "")) as [->|Himdb];
    [by rewrite bool_decide_eq_true_2|rewrite (bool_decide_eq_false_2 _ Himdb)].
  destruct (decide (tmdb = 0)) as [->|Htmdb];
    [by rewrite bool_decide_eq_true_2|rewrite (bool_decide_eq_false_2 _ Htmdb)].
  destruct (decide (tvdb = 0)) as [->|Htvdb];
    [by rewrite bool_decide_eq_true_2|rewrite (bool_decide_eq_false_2 _ Htvdb)].
  cbn [negb andb].
  destruct (getImages tmdb_tv_images fanart_getShowImages tmdb tvdb) as [im|e] eqn:Him;
    cbn [mbind promise_bind]; [|done].
  destruct (airs t) as [[day time]|] eqn:Hairs; cbn [read_airs mbind promise_bind]; [|done].
  intros [= <-]. exists t, w. simpl. repeat split; try done.
  by destruct w.
Qed.



End Providers.

(** TMDB knows an English poster and an untagged backdrop. *)
Definition tmdb_complete : TmdbImages :=
  {| posters := [ {| iso_639_1 := Some "de"; file_path := "/de.jpg"; width := 500 |};
                  {| iso_639_1 := Some "en"; file_path := "/p.jpg"; width := 500 |} ];
     backdrops := [ {| iso_639_1 := None; file_path := "/b.jpg"; width := 1280 |} ] |}.

Definition images_ok : Images :=
  {| backdrop := "http://image.tmdb.org/t/p/w1280/b.jpg";
     poster := "http://image.tmdb.org/t/p/w500/p.jpg";
     logo := "http://fanart/logo.png"; thumb := "http://fanart/thumb.jpg" |}.

Lemma getImages_resolved_inv_witness :
  getImages (fun _ => Resolved tmdb_complete) (fun _ => Resolved fanart_complete)
    1399 121361 = Resolved images_ok
  /\ exists i p b f bg po lo th r1 r2 r3 r4,
       Resolved (E := error) tmdb_complete = Resolved i
       /\ head (List.filter lang_cb (posters i)) = Some p
       /\ head (List.filter lang_cb (backdrops i)) = Some b
       /\ Resolved (E := error) fanart_complete = Resolved f
       /\ showbackground f = Some (bg :: r1) /\ tvposter f = Some (po :: r2)
       /\ hdtvlogo f = Some (lo :: r3) /\ tvthumb f = Some (th :: r4)
       /\ images_ok = {| backdrop := tmdb_url b; poster := tmdb_url p;
                         logo := fanart_url lo; thumb := fanart_url th |}.
Proof.
  assert (getImages (fun _ => Resolved tmdb_complete) (fun _ => Resolved fanart_complete)
            1399 121361 = Resolved images_ok) as H by reflexivity.
  split; [exact H|].
  exact (getImages_resolved_inv (fun _ => Resolved tmdb_complete)
           (fun _ => Resolved fanart_complete) 1399 121361 images_ok H).
Defined.

Definition info_ok : ShowInfo :=
  {| info_imdb_id := "tt0000001"; info_tmdb_id := 1399; info_tvdb_id := 121361;
     info_title := "A show"; info_slug := "a-show";
     info_rating := {| rating_votes := 1200; watching := 2; percentage := 87 |};
     info_images := images_ok; info_genres := ["drama"];
     info_air_day := Some "Sunday"; info_air_time := Some "21:00";
     info_last_updated := 1600000000000 |}.

Definition two_watchers : list Watcher :=
  [ {| username := "ann" |}; {| username := "bob" |} ].

Lemma getTraktInfo_record_inv_witness :
  getTraktInfo (fun _ => Resolved tmdb_complete) (fun _ => Resolved fanart_complete)
    (fun _ => Resolved (Some trakt_show_ok)) (fun _ => Resolved (Some two_watchers))
    1600000000000 "a-show" = Resolved (Some info_ok)
  /\ info_imdb_id info_ok <> "" /\ info_tmdb_id info_ok <> 0
  /\ info_tvdb_id info_ok <> 0
  /\ watching (info_rating info_ok) = 2.
Proof.
  assert (getTraktInfo (fun _ => Resolved tmdb_complete)
            (fun _ => Resolved fanart_complete)
            (fun _ => Resolved (Some trakt_show_ok))
            (fun _ => Resolved (Some two_watchers))
            1600000000000 "a-show" = Resolved (Some info_ok)) as H by reflexivity.
  split; [exact H|].
  destruct (getTraktInfo_record_inv _ _ _ _ _ _ _ H)
    as (t & w & _ & Hw & _ & H1 & _ & H2 & _ & H3 & _ & H4 & _).
  injection Hw as <-. by repeat split.
Defined.



End ShowMetadataFacts.

(** ** Season assembly of a show *)

Module ShowSeasons.

Import ShowHelper.

(** An episode and a season of the TMDB season catalogue. *)
Record TmdbEpisode : Type := mkTmdbEpisode {
  te_id : Z;
  te_episode_number : Z;
  te_title : string;
  te_overview : string;
  te_air_date : string;
  te_still_path : option string
}.

Record TmdbSeason : Type := mkTmdbSeason {
  ts_episodes : list TmdbEpisode;
  ts_id : Z;
  ts_season_number : Z;
  ts_name : string;
  ts_overview : string;
  ts_air_date : string;
  ts_poster_path : option string
}.

(** The objects [_addSeason] builds; [torrents] is what the caller's
    buckets hold for the episode, [None] when they hold nothing. *)
Record SeasonEpisode : Type := mkSeasonEpisode {
  se_tmdb_id : Z;
  se_number : Z;
  se_title : string;
  se_synopsis : string;
  se_first_aired : Q;
  se_image : option string;
  se_torrents : option (gmap string EpTorrent)
}.

Record Season : Type := mkSeason {
  sn_tmdb_id : Z;
  sn_number : Z;
  sn_title : string;
  sn_synopsis : string;
  sn_first_aired : Q;
  sn_image : option string;
  sn_episodes : list SeasonEpisode
}.

(** The fields of the show that [_addSeason] reads or writes. *)
Record SeasonShow : Type := mkSeasonShow {
  tmdb_id : Z;
  seasons : list Season
}.

(** What the callbacks of [_addSeason] can throw. *)
Inductive season_error : Type :=
| ProviderRejected (e : error)
| ReferenceError (name : string)
| IndexTypeError.

(** Reading a [const] of the enclosing block: before its declaration has
    run the binding is uninitialised and the read throws. *)
Definition read_const {A} (name : string) (binding : option A) : promise A season_error :=
  match binding with
  | Some v => Resolved v
  | None => Rejected (ReferenceError name)
  end.

(** [l.map(cb)] with a callback that may throw: the first throw ends it. *)
Fixpoint map_throwing {A B E} (cb : A -> promise B E) (l : list A) : promise (list B) E :=
  match l with
  | [] => Resolved []
  | x :: l' => y ← cb x; ys ← map_throwing cb l'; mret (y :: ys)
  end.

Section Catalogue.

(** [tmdb.seasons.season({id, season})]. *)
Variable tmdb_seasons_season : Z -> string -> promise TmdbSeason error.
(** [new Date(s).getTime()], in milliseconds. *)
Variable Date_getTime : string -> Z.

Definition baseUrl : string := "https://image.tmdb.org/t/p".

(** Callback of [s.episodes.map].  The name [season] in it is the [const
    season] that the enclosing arrow function declares after the [map]
    call, not the parameter of [_addSeason]; [season_binding] is that
    constant's binding when the callback runs.  An object used as a key is
    the string "[object Object]".  The properties of the literal are
    evaluated in order, so the read of [season] comes last.  (Compiled to
    [var], the read yields [undefined] instead and indexing the buckets by
    it throws, with the same outcome.) *)
Definition episode_cb (episodes : gmap string (gmap Z (gmap string EpTorrent)))
    (season_binding : option Season) (e : TmdbEpisode) :
    promise SeasonEpisode season_error :=
  let tmdb_id := te_id e in
  let number := te_episode_number e in
  let first_aired := (inject_Z (Date_getTime (te_air_date e)) / 1000)%Q in
  let image := match te_still_path e with
               | Some p => if truthy_string (Some p)
                           then Some (baseUrl +:+ "/w300/" +:+ p) else None
               | None => None
               end in
  season ← read_const "season" season_binding;
  torrents ← match episodes !! "[object Object]" with
             | Some by_number => Resolved (by_number !! te_episode_number e)
             | None => Rejected IndexTypeError
             end;
  mret {| se_tmdb_id := tmdb_id; se_number := number; se_title := te_title e;
          se_synopsis := te_overview e; se_first_aired := first_aired;
          se_image := image; se_torrents := torrents |}.

(** The promise of [_addSeason] resolves with the show, or, after the
    [catch] logged an error, with [undefined]; the second component is the
    show object afterwards. *)
Definition _addSeason (show : SeasonShow)
    (episodes : gmap string (gmap Z (gmap string EpTorrent))) (season : string) :
    option SeasonShow * SeasonShow :=
  let settled : promise SeasonShow season_error :=
    match tmdb_seasons_season (tmdb_id show) season with
    | Rejected e => Rejected (ProviderRejected e)
    | Resolved s =>
        (* [const season] below is not yet initialised while [map] runs *)
        updatedEpisodes ← map_throwing (episode_cb episodes None) (ts_episodes s);
        let season' :=
          {| sn_tmdb_id := ts_id s;
             sn_number := ts_season_number s;
             sn_title := ts_name s;
             sn_synopsis := ts_overview s;
             sn_first_aired := (inject_Z (Date_getTime (ts_air_date s)) / 1000)%Q;
             sn_image := match ts_poster_path s with
                         | Some p => if truthy_string (Some p)
                                     then Some (baseUrl +:+ "/w500/" +:+ p) else None
                         | None => None
                         end;
             sn_episodes := updatedEpisodes |} in
        Resolved {| tmdb_id := tmdb_id show; seasons := seasons show ++ [season'] |}
    end in
  match settled with
  | Resolved show' => (Some show', show')
  | Rejected _ => (None, show)
  end.

Lemma map_throwing_uninitialised
    (episodes : gmap string (gmap Z (gmap string EpTorrent))) (l : list TmdbEpisode) :
  map_throwing (episode_cb episodes None) l =
    match l with [] => Resolved [] | _ :: _ => Rejected (ReferenceError "season") end.
Proof. by destruct l. Qed.

(** [_addSeason] never attaches an episode.  When the catalogue lists at
    least one episode of the season, building the first one throws, the
    error is logged, the promise resolves with [undefined] and the show's
    seasons are as before; the same when the catalogue request fails.  A
    season is appended only when the catalogue lists no episode, and it has
    none. *)
Theorem addSeason_never_attaches_episodes (show : SeasonShow)
    (episodes : gmap string (gmap Z (gmap string EpTorrent))) (season : string) :
  match tmdb_seasons_season (tmdb_id show) season with
  | Resolved s =>
      match ts_episodes s with
      | [] => exists header,
                _addSeason show episodes season
                = (Some {| tmdb_id := tmdb_id show; seasons := seasons show ++ [header] |},
                   {| tmdb_id := tmdb_id show; seasons := seasons show ++ [header] |})
                /\ sn_episodes header = []
                /\ sn_number header = ts_season_number s
      | _ :: _ => _addSeason show episodes season = (None, show)
      end
  | Rejected _ => _addSeason show episodes season = (None, show)
  end.
Proof.
  unfold _addSeason.
  destruct (tmdb_seasons_season (tmdb_id show) season) as [s|e]; [|reflexivity].
  rewrite map_throwing_uninitialised.
  destruct (ts_episodes s); [|reflexivity].
  cbn [mbind promise_bind]. eexists. split; [reflexivity|]. by split.
Qed.

End Catalogue.

End ShowSeasons.

(** ** The image chain, the metadata fetch and the upsert of a movie *)

Module MovieFacts.

Import MovieHelper.

Section Helper.

Variable placeholder_truthy : bool.
Variable checkImages_passes : Movie -> bool.
Variable _formatImdbImage : string -> ImageSizes.
Variable _formatTorrents :
  option (list Torrent) -> option (list Torrent) -> option (list Torrent).
Variable tmdb_movie_images : Z -> promise TmdbImages error.
Variable omdb_byId : string -> promise OmdbMovie error.
Variable fanart_getMovieImages : Z -> promise FanartMovieImages error.
Variable trakt_movies_summary : string -> promise (option TraktMovie) error.
Variable trakt_movies_watching : string -> promise (option (list Watcher)) error.
Variable now_createdAt : Z.
Variable now_updatedAt : Z.

#[local] Abbreviation addImages' :=
  (addImages placeholder_truthy checkImages_passes _formatImdbImage
     tmdb_movie_images omdb_byId fanart_getMovieImages).
#[local] Abbreviation getTraktInfo' :=
  (getTraktInfo placeholder_truthy checkImages_passes _formatImdbImage
     tmdb_movie_images omdb_byId fanart_getMovieImages
     trakt_movies_summary trakt_movies_watching
     now_createdAt now_updatedAt).

(** [addTorrents(movie, torrents)]: [_formatTorrents] is called with one
    argument, its second parameter being [undefined]. *)
Definition addTorrents (movie : Movie) (torrents : option (list Torrent)) :
    M (gmap string Movie) (option Movie) :=
  let movie := set_torrents movie (_formatTorrents torrents None) in
  _updateMovieInDb _formatTorrents movie.

(** *** The image chain *)

(** [addImages] is best effort: it never rejects, and the record it resolves
    with differs from its argument in the images only. *)
Theorem addImages_changes_images_only (movie : Movie) :
  exists r, addImages' movie = Resolved r /\ with_images r (images movie) = movie.
Proof.
  destruct (addImages_resolves placeholder_truthy checkImages_passes _formatImdbImage
              tmdb_movie_images omdb_byId fanart_getMovieImages movie) as (i & ->).
  eexists. split; [reflexivity|]. by destruct movie.
Qed.

(** When the requests to all three providers fail, the record comes back as
    it was. *)
Theorem addImages_all_providers_fail (movie : Movie) (e1 e2 e3 : error) :
  tmdb_movie_images (tmdbId movie) = Rejected e1 ->
  omdb_byId (imdbId movie) = Rejected e2 ->
  fanart_getMovieImages (tmdbId movie) = Rejected e3 ->
  addImages' movie = Resolved movie.
Proof.
  intros H1 H2 H3. unfold addImages, _addTmdbImages. rewrite H1. cbn [catch then_].
  unfold _addOmdbImages. rewrite H2.
  destruct (truthy placeholder_truthy (poster (images movie))); cbn [catch then_];
    unfold _addFanartImages; rewrite H3; reflexivity.
Qed.

(** OMDB is consulted only when TMDB gave no poster: with a TMDB poster
    tagged 'en' or untagged and a truthy tmdb id, the result is the same
    whatever OMDB would answer. *)
Theorem addImages_skips_omdb_after_tmdb_poster (movie : Movie) (i : TmdbImages)
    (p : TmdbImage) (omdb' : string -> promise OmdbMovie error) :
  tmdb_movie_images (tmdbId movie) = Resolved i ->
  head (List.filter lang_cb (posters i)) = Some p ->
  tmdbId movie <> 0 ->
  addImages' movie
  = addImages placeholder_truthy checkImages_passes _formatImdbImage
      tmdb_movie_images omdb' fanart_getMovieImages movie.
Proof.
  intros Hi Hp Hid. unfold addImages, _addTmdbImages, checkImages. rewrite Hi.
  cbn [then_]. rewrite Hp.
  destruct (checkImages_passes _); cbn [catch]; [reflexivity|].
  unfold truthy_number. cbn [with_images tmdbId].
  rewrite (bool_decide_eq_false_2 _ Hid). cbn [negb catch].
  unfold _addOmdbImages. by cbn [with_images images poster truthy catch].
Qed.

(** *** The metadata fetch *)

(** Whatever goes wrong in [getTraktInfo], it rejects with an [Error] whose
    message starts with the function's name. *)
Theorem getTraktInfo_rejections_wrapped (slug : string) (e : error) :
  getTraktInfo' slug = Rejected e ->
  exists rest, e = PlainError ("getTraktInfo: " +:+ rest).
Proof.
  unfold getTraktInfo.
  assert (forall err : error, exists rest,
            (let message :=
               "getTraktInfo: " +:+
               (if truthy_string (error_path err)
                then default "" (error_path err) else error_to_string err) in
             if bool_decide (error_statusCode err = Some 404)
             then "getTraktInfo: Could not find any data with slug: '" +:+ slug +:+ "'"
             else message) = "getTraktInfo: " +:+ rest) as Hmsg.
  { intros err. cbv zeta. case_bool_decide; by eexists. }
  destruct (trakt_movies_summary slug) as [o|e1]; cbn [mbind promise_bind catch].
  2: { intros [= <-]. destruct (Hmsg e1) as (rest & Hrest). exists rest. by f_equal. }
  destruct (trakt_movies_watching slug) as [w|e2]; cbn [mbind promise_bind catch].
  2: { intros [= <-]. destruct (Hmsg e2) as (rest & Hrest). exists rest. by f_equal. }
  destruct o as [t|]; [|done].
  destruct (ids_imdb (ids t)) as [imdb|]; [|done].
  destruct (ids_tmdb (ids t)) as [tmdb|]; [|done].
  destruct (truthy_string (Some imdb) && truthy_number (Some tmdb)); [|done].
  match goal with
  | |- context [addImages' ?draft] =>
      destruct (addImages_resolves placeholder_truthy checkImages_passes _formatImdbImage
                  tmdb_movie_images omdb_byId fanart_getMovieImages draft) as (im & ->)
  end.
  done.
Qed.

(** A 404 of either Trakt call is reported with the slug that was asked
    for, whatever the error's own message or path. *)
Theorem getTraktInfo_not_found_message (slug : string) (e : error) :
  error_statusCode e = Some 404 ->
  trakt_movies_summary slug = Rejected e
  \/ (exists o, trakt_movies_summary slug = Resolved o)
     /\ trakt_movies_watching slug = Rejected e ->
  getTraktInfo' slug
  = Rejected (PlainError
      ("getTraktInfo: Could not find any data with slug: '" +:+ slug +:+ "'")).
Proof.
  intros H404 [Hs|[(o & Hs) Hw]]; unfold getTraktInfo; rewrite Hs; [|rewrite Hw];
    cbn [mbind promise_bind catch]; by rewrite H404, bool_decide_eq_true_2.
Qed.

(** A record that [getTraktInfo] resolves with is keyed by the summary's
    imdb id, has non-falsy imdb and tmdb ids, no torrents and no user state
    yet (not bookmarked, not watched, never downloaded), [createdAt] and
    [updatedAt] each at the clock value read for it, the rounded rating and
    the watcher count. *)
Theorem getTraktInfo_fresh_record (slug : string) (m : Movie) :
  getTraktInfo' slug = Resolved (Some m) ->
  exists t w,
    trakt_movies_summary slug = Resolved (Some t)
    /\ trakt_movies_watching slug = Resolved w
    /\ ids_imdb (ids t) = Some (_id m) /\ imdbId m = _id m /\ _id m <> ""
    /\ ids_tmdb (ids t) = Some (tmdbId m) /\ tmdbId m <> 0
    /\ torrents m = Some []
    /\ bookmarked m = false /\ bookmarkedOn m = None
    /\ watched m = {| complete := false; progress := 0 |}
    /\ downloaded m = None /\ downloading m = None /\ downloadedOn m = None
    /\ createdAt m = now_createdAt /\ updatedAt m = now_updatedAt
    /\ percentage (rating m) = Math_round (trakt_rating t * 10)
    /\ (stars (rating m) == inject_Z (percentage (rating m)) / 20)%Q
    /\ watching (rating m) = Z.of_nat (length (default [] w))
    /\ genres m = default ["unknown"] (trakt_genres t).
Proof.
  unfold getTraktInfo.
  destruct (trakt_movies_summary slug) as [o|e1]; cbn [mbind promise_bind catch]; [|done].
  destruct (trakt_movies_watching slug) as [w|e2]; cbn [mbind promise_bind catch]; [|done].
  destruct o as [t|]; [|done].
  destruct (ids_imdb (ids t)) as [imdb|] eqn:Hi1; [|done].
  destruct (ids_tmdb (ids t)) as [tmdb|] eqn:Hi2; [|done].
  unfold truthy_string, truthy_number.
  destruct (decide (imdb = "")) as [->|Himdb];
    [by rewrite bool_decide_eq_true_2|rewrite (bool_decide_eq_false_2 _ Himdb)].
  destruct (decide (tmdb = 0)) as [->|Htmdb];
    [by rewrite bool_decide_eq_true_2|rewrite (bool_decide_eq_false_2 _ Htmdb)].
  cbn [negb andb].
  match goal with
  | |- context [addImages' ?draft] =>
      destruct (addImages_resolves placeholder_truthy checkImages_passes _formatImdbImage
                  tmdb_movie_images omdb_byId fanart_getMovieImages draft) as (im & ->)
  end.
  cbn [mbind promise_bind catch mret promise_ret]. intros [= <-].
  exists t, w. simpl. repeat split; try done.
  - field.
  - by destruct w.
Qed.

(** *** The upsert *)

(** What [_updateMovieInDb] writes, in one equation. *)
Definition written_by_upsert (d : gmap string Movie) (m : Movie) : Movie :=
  match d !! _id m with
  | Some found =>
      keep_old_attributes
        (if truthy_array (torrents found)
         then set_torrents m (_formatTorrents (torrents m) (torrents found))
         else m) found
  | None => m
  end.

Lemma updateMovieInDb_run (d : gmap string Movie) (m : Movie) :
  _updateMovieInDb _formatTorrents m d
  = (Some (written_by_upsert d m), <[_id m := written_by_upsert d m]> d).
Proof.
  unfold _updateMovieInDb, written_by_upsert, mbind, M_bind, findOne.
  destruct (d !! _id m) as [found|]; [|reflexivity].
  unfold findOneAndUpdate, mret, M_ret.
  destruct (truthy_array (torrents found)); reflexivity.
Qed.

Lemma written_by_upsert_id (d : gmap string Movie) (m : Movie) :
  _id (written_by_upsert d m) = _id m.
Proof.
  unfold written_by_upsert. destruct (d !! _id m) as [found|]; [|reflexivity].
  by destruct (truthy_array (torrents found)).
Qed.

(** The upsert always yields a record; looking the id up afterwards finds
    that record, and looking any other id up finds what it found before. *)
Theorem updateMovieInDb_then_findOne (d : gmap string Movie) (m : Movie) :
  exists w d',
    _updateMovieInDb _formatTorrents m d = (Some w, d')
    /\ _id w = _id m
    /\ forall k, fst (findOne k d')
                 = if decide (k = _id m) then Some w else fst (findOne k d).
Proof.
  rewrite updateMovieInDb_run. eexists _, _. split; [reflexivity|].
  split; [apply written_by_upsert_id|]. intros k. unfold findOne. simpl.
  destruct (decide (k = _id m)) as [->|Hk];
    [by rewrite lookup_insert_eq | by rewrite lookup_insert_ne].
Qed.

(** The user state of a record. *)
Definition user_state (m : Movie) :=
  (createdAt m, bookmarked m, bookmarkedOn m, watched m,
   downloaded m, downloading m, downloadedOn m).

(** The store after a series of scrapes, each handed to [addTorrents]. *)
Definition scrape_all (scrapes : list (Movie * option (list Torrent)))
    (d : gmap string Movie) : gmap string Movie :=
  fold_left (fun d mt => snd (addTorrents mt.1 mt.2 d)) scrapes d.

(** However many times a stored movie is scraped again, and whatever the
    scrapes bring, its user state and creation time stay those of the
    stored record. *)
Theorem addTorrents_repeated_keeps_user_state
    (scrapes : list (Movie * option (list Torrent)))
    (d : gmap string Movie) (k : string) (found : Movie) :
  d !! k = Some found ->
  Forall (fun mt => _id mt.1 = k) scrapes ->
  exists w, scrape_all scrapes d !! k = Some w
            /\ user_state w = user_state found.
Proof.
  intros Hfound Hall. revert d found Hfound.
  induction Hall as [|[m ts] scrapes Hk Hall IH]; intros d found Hfound; simpl.
  - by exists found.
  - simpl in Hk. unfold addTorrents. rewrite updateMovieInDb_run. simpl.
    set (m' := set_torrents m _).
    assert (_id m' = k) as Hk' by (subst m'; exact Hk).
    destruct (IH (<[_id m' := written_by_upsert d m']> d) (written_by_upsert d m'))
      as (w & Hw & Hstate).
    { rewrite Hk'. apply lookup_insert_eq. }
    exists w. split; [exact Hw|]. rewrite Hstate.
    unfold written_by_upsert. rewrite Hk', Hfound.
    by destruct (truthy_array (torrents found)).
Qed.

End Helper.

(** *** Scenarios *)

Definition unavailable : error := ProviderError (Some 503) None "Service Unavailable".

Definition not_found : error :=
  ProviderError (Some 404) (Some "/movies/no-such-movie") "Not Found".

Lemma addImages_all_providers_fail_witness :
  addImages false checkImages_spec format_tmdb
    (fun _ => Rejected unavailable) (fun _ => Rejected unavailable)
    (fun _ => Rejected not_found) draft = Resolved draft.
Proof.
  exact (addImages_all_providers_fail false checkImages_spec format_tmdb
           (fun _ => Rejected unavailable) (fun _ => Rejected unavailable)
           (fun _ => Rejected not_found) draft unavailable unavailable not_found
           eq_refl eq_refl eq_refl).
Defined.

Lemma addImages_skips_omdb_after_tmdb_poster_witness :
  addImages false checkImages_spec format_tmdb
    tmdb_only_poster omdb_poster fanart_poster_backdrop draft
  = addImages false checkImages_spec format_tmdb
      tmdb_only_poster (fun _ => Rejected unavailable) fanart_poster_backdrop draft.
Proof.
  apply (addImages_skips_omdb_after_tmdb_poster false checkImages_spec format_tmdb
           tmdb_only_poster omdb_poster fanart_poster_backdrop draft
           {| posters := [ {| iso_639_1 := Some "en"; file_path := "/poster.jpg" |} ];
              backdrops := [] |}
           {| iso_639_1 := Some "en"; file_path := "/poster.jpg" |}).
  - reflexivity.
  - reflexivity.
  - discriminate.
Defined.

Lemma getTraktInfo_rejections_wrapped_witness :
  getTraktInfo false checkImages_spec format_tmdb
    tmdb_only_poster omdb_poster fanart_poster_backdrop
    trakt_summary_ok trakt_watching_unavailable 1600000000000 1600000000007 "the-matrix-1999"
  = Rejected (PlainError "getTraktInfo: Error: Service Unavailable")
  /\ exists rest,
       PlainError "getTraktInfo: Error: Service Unavailable"
       = PlainError ("getTraktInfo: " +:+ rest).
Proof.
  assert (getTraktInfo false checkImages_spec format_tmdb
            tmdb_only_poster omdb_poster fanart_poster_backdrop
            trakt_summary_ok trakt_watching_unavailable 1600000000000 1600000000007 "the-matrix-1999"
          = Rejected (PlainError "getTraktInfo: Error: Service Unavailable")) as H
    by reflexivity.
  split; [exact H|].
  exact (getTraktInfo_rejections_wrapped _ _ _ _ _ _ _ _ _ _ _ _ H).
Defined.

Lemma getTraktInfo_not_found_message_witness :
  getTraktInfo false checkImages_spec format_tmdb
    tmdb_only_poster omdb_poster fanart_poster_backdrop
    (fun _ => Rejected not_found) trakt_watching_null 1600000000000 1600000000007 "no-such-movie"
  = Rejected (PlainError
      "getTraktInfo: Could not find any data with slug: 'no-such-movie'").
Proof.
  apply (getTraktInfo_not_found_message false checkImages_spec format_tmdb
           tmdb_only_poster omdb_poster fanart_poster_backdrop
           (fun _ => Rejected not_found) trakt_watching_null 1600000000000 1600000000007
           "no-such-movie" not_found).
  - reflexivity.
  - left. reflexivity.
Defined.

Lemma getTraktInfo_fresh_record_witness :
  exists m,
    getTraktInfo false checkImages_spec format_tmdb
      tmdb_only_poster omdb_poster fanart_poster_backdrop
      trakt_summary_ok trakt_watching_null 1600000000000 1600000000007 "the-matrix-1999"
    = Resolved (Some m)
    /\ _id m = "tt0133093" /\ torrents m = Some [] /\ bookmarked m = false
    /\ percentage (rating m) = 87 /\ watching (rating m) = 0.
Proof.
  assert (exists m,
            getTraktInfo false checkImages_spec format_tmdb
              tmdb_only_poster omdb_poster fanart_poster_backdrop
              trakt_summary_ok trakt_watching_null 1600000000000 1600000000007 "the-matrix-1999"
            = Resolved (Some m)) as (m & H) by (eexists; reflexivity).
  exists m. split; [exact H|].
  destruct (getTraktInfo_fresh_record _ _ _ _ _ _ _ _ _ _ _ _ H)
    as (t & w & Hs & Hw & Hid & _ & _ & _ & _ & Ht & Hb & _ & _ & _ & _ & _ & _ & _
        & Hp & _ & Hwatch & _).
  injection Hs as <-. injection Hw as <-. injection Hid as <-.
  by repeat split.
Defined.

Lemma addTorrents_repeated_keeps_user_state_witness :
  let d : gmap string Movie := {[ "tt0133093" := stored_movie ]} in
  let scrapes := [ (draft, Some []);
                   (draft, Some [ {| quality := "720p"; language := "en";
                                     url := "magnet:new"; seeds := 10; peers := 2 |} ]) ] in
  exists w, scrape_all append_torrents scrapes d !! "tt0133093" = Some w
            /\ user_state w = user_state stored_movie.
Proof.
  intros d scrapes.
  apply (addTorrents_repeated_keeps_user_state append_torrents scrapes d
           "tt0133093" stored_movie).
  - reflexivity.
  - repeat constructor.
Defined.

End MovieFacts.

(** ** The upsert of the earlier movie helper *)

Module LegacyMovieStore.

Import LegacyMovieHelper.

(** The fields of a movie document that the upsert reads or writes; an
    absent [torrents] key is [None]. *)
Record Movie : Type := mkMovie {
  imdb_id : string;
  title : string;
  last_updated : Z;
  torrents : option (list Torrent)
}.

Definition set_torrents (m : Movie) (t : option (list Torrent)) : Movie :=
  {| imdb_id := imdb_id m; title := title m; last_updated := last_updated m;
     torrents := t |}.

(** [this._updateTorrents(m.torrents, found.torrents)] as JS runs it: on
    [undefined] incoming torrents the first iteration throws at
    [torrents.find]; without any iteration [undefined] comes back. *)
Definition call_updateTorrents (torrents : option (list Torrent))
    (foundTorrents : list Torrent) : promise (option (list Torrent)) error :=
  match torrents with
  | Some ts => Resolved (Some (_updateTorrents ts foundTorrents))
  | None =>
      match foundTorrents with
      | [] => Resolved None
      | _ :: _ => Rejected (TypeError "Cannot read properties of undefined (reading 'find')")
      end
  end.

(** The [catch] of [_updateMovieInDb] logs the error; the function then
    yields [undefined]. *)
Definition _updateMovieInDb (movie : Movie) : M (gmap string Movie) (option Movie) :=
  let m := movie in
  found ← findOne (imdb_id m);
  match found with
  | Some found =>
      match torrents found with
      | Some foundTorrents =>
          match call_updateTorrents (torrents m) foundTorrents with
          | Resolved merged =>
              let m := set_torrents m merged in
              r ← findOneAndUpdate (imdb_id m) m;
              mret (Some r)
          | Rejected _ => mret None
          end
      | None =>
          r ← findOneAndUpdate (imdb_id m) m;
          mret (Some r)
      end
  | None =>
      r ← save imdb_id m;
      mret (Some r)
  end.

Definition addTorrents (movie : Movie) (torrents : option (list Torrent)) :
    M (gmap string Movie) (option Movie) :=
  _updateMovieInDb (set_torrents movie torrents).

(** Scraping a stored movie again writes the scraped record under its id,
    with the merge of the scraped and the stored torrents as its torrents;
    every torrent written was scraped or stored. *)
Theorem addTorrents_writes_merged (d : gmap string Movie) (movie found : Movie)
    (ts foundTorrents : list Torrent) :
  d !! imdb_id movie = Some found ->
  torrents found = Some foundTorrents ->
  let w := set_torrents movie (Some (_updateTorrents ts foundTorrents)) in
  addTorrents movie (Some ts) d = (Some w, <[imdb_id movie := w]> d)
  /\ forall t, t ∈ _updateTorrents ts foundTorrents -> t ∈ ts \/ t ∈ foundTorrents.
Proof.
  intros Hfound Hft w. subst w. split.
  - unfold addTorrents, _updateMovieInDb, mbind, M_bind, findOne. simpl.
    by rewrite Hfound, Hft.
  - unfold _updateTorrents.
    apply (LegacyMovieFacts.forEach_closed (fun x => x ∈ ts \/ x ∈ foundTorrents));
      simpl; auto.
Qed.

(** Without incoming torrents ([undefined]) and with stored ones, the merge
    throws inside the [try]: nothing is written, the store is as before and
    the caller gets [undefined]. *)
Theorem addTorrents_undefined_torrents (d : gmap string Movie) (movie found : Movie)
    (t : Torrent) (rest : list Torrent) :
  d !! imdb_id movie = Some found ->
  torrents found = Some (t :: rest) ->
  addTorrents movie None d = (None, d).
Proof.
  intros Hfound Hft.
  unfold addTorrents, _updateMovieInDb, mbind, M_bind, findOne. simpl.
  by rewrite Hfound, Hft.
Qed.

Definition movie_scraped : Movie :=
  {| imdb_id := "tt0133093"; title := "The Matrix"; last_updated := 1600000000000;
     torrents := None |}.

Definition movie_stored : Movie :=
  {| imdb_id := "tt0133093"; title := "The Matrix (old title)";
     last_updated := 1500000000000; torrents := Some [en_1080p_5; en_720p_5] |}.

Lemma addTorrents_writes_merged_witness :
  let d : gmap string Movie := {[ "tt0133093" := movie_stored ]} in
  let w := set_torrents movie_scraped
             (Some (_updateTorrents [en_720p_10] [en_1080p_5; en_720p_5])) in
  addTorrents movie_scraped (Some [en_720p_10]) d
    = (Some w, <["tt0133093" := w]> d)
  /\ title w = "The Matrix"
  /\ torrents w = Some [en_720p_10].
Proof.
  intros d w.
  destruct (addTorrents_writes_merged d movie_scraped movie_stored
              [en_720p_10] [en_1080p_5; en_720p_5] eq_refl eq_refl) as [Hrun _].
  split; [exact Hrun|]. by split.
Defined.

Lemma addTorrents_undefined_torrents_witness :
  let d : gmap string Movie := {[ "tt0133093" := movie_stored ]} in
  addTorrents movie_scraped None d = (None, d).
Proof.
  intros d.
  exact (addTorrents_undefined_torrents d movie_scraped movie_stored
           en_1080p_5 [en_720p_5] eq_refl eq_refl).
Defined.

End LegacyMovieStore.
